(** * e3nn.util.codegen._mixin : CodeGenMixin

    A shallow embedding of [CodeGenMixin] (src/e3nn/util/codegen/_mixin.py):
    [_codegen_register], [__getstate__] and [__setstate__], over a small
    model of the Python object store.

    Python objects that the mixin mutates or copies (instance dictionaries,
    the [_modules] ordered dictionary, the [__codegen__] list, the state
    dictionaries that travel through pickling) live in a heap and are
    referred to by location, so that aliasing between the live module and
    the state handed to pickle is visible.  Exceptions leave the heap as it
    is at the point where they are raised. *)

From Stdlib Require Import ZArith Strings.Byte.
From stdpp Require Import base list strings.

Local Open Scope string_scope.
Local Open Scope list_scope.

(** ** Values and objects *)

Abbreviation loc := nat (only parsing).
Abbreviation bytes := (list Byte.byte) (only parsing).

(** The classes the mixin tests with [isinstance].  [PlainModule] stands for
    any other [torch.nn.Module]. *)
Inductive module_class :=
  | GraphModule        (* torch.fx.GraphModule *)
  | OptimizedModule    (* torch._dynamo.OptimizedModule *)
  | ScriptModule       (* torch.jit.ScriptModule *)
  | PlainModule.

(** A module is opaque to the mixin: its class and some body. *)
Record module := Module { m_class : module_class; m_body : bytes }.

Inductive value :=
  | VNone
  | VInt (z : Z)
  | VStr (s : string)
  | VBytes (b : bytes)
  | VModule (m : module)
  | VPair (a b : value)          (* a 2-tuple *)
  | VRef (l : loc).              (* a dict, a list or an instance *)

(** A Python [dict] / [OrderedDict] with string keys, in insertion order. *)
Abbreviation dict := (list (string * value)) (only parsing).

Inductive object :=
  | OInstance (attrs : dict)     (* an object, through its [__dict__] *)
  | ODict (d : dict)
  | OList (l : list value).

Abbreviation heap := (list object) (only parsing).

Inductive exn :=
  | KeyError
  | AttributeError
  | TypeError
  | AssertionError
  | ValueError
  | NotImplementedError
  | ExternalError (code : nat).  (* raised by pickle, torch.jit or the compiler *)

Global Instance exn_eq_dec : EqDecision exn.
Proof. solve_decision. Defined.

Inductive result (A : Type) :=
  | Ok (a : A)
  | Err (e : exn).
Arguments Ok {A} a.
Arguments Err {A} e.

(** ** Dictionaries *)

Fixpoint dict_get (k : string) (d : dict) : option value :=
  match d with
  | [] => None
  | (k', v) :: d' => if String.eqb k' k then Some v else dict_get k d'
  end.

Definition dict_mem (k : string) (d : dict) : bool :=
  match dict_get k d with Some _ => true | None => false end.

(** [d[k] = v]: an existing key keeps its position, a new one goes last. *)
Fixpoint dict_set (k : string) (v : value) (d : dict) : dict :=
  match d with
  | [] => [(k, v)]
  | (k', v') :: d' =>
      if String.eqb k' k then (k, v) :: d' else (k', v') :: dict_set k v d'
  end.

Definition dict_remove (k : string) (d : dict) : dict :=
  List.filter (λ kv, negb (String.eqb (fst kv) k)) d.

Definition dict_keys (d : dict) : list string := map fst d.

(** [d.update(src)] *)
Definition dict_update (d src : dict) : dict :=
  fold_left (λ acc kv, dict_set (fst kv) (snd kv) acc) src d.

(** ** The state and exception monad *)

Definition M (A : Type) : Type := heap → result A * heap.

Definition ret {A} (a : A) : M A := λ σ, (Ok a, σ).

Definition bind {A B} (m : M A) (f : A → M B) : M B :=
  λ σ, match m σ with
       | (Ok a, σ') => f a σ'
       | (Err e, σ') => (Err e, σ')
       end.

Definition raise {A} (e : exn) : M A := λ σ, (Err e, σ).

Definition lift {A} (r : result A) : M A := λ σ, (r, σ).

Declare Scope py_scope.
Delimit Scope py_scope with py.
Notation "'do' x <- m ; k" := (bind m (λ x, k))
  (at level 10, x name, m at level 100, k at level 200,
   format "'[v' 'do'  x  <-  m ; '/' k ']'") : py_scope.
Notation "m ;; k" := (bind m (λ _, k))
  (at level 100, k at level 200, right associativity) : py_scope.
Local Open Scope py_scope.

Definition assert (b : bool) : M unit :=
  if b then ret tt else raise AssertionError.

Fixpoint for_each {A} (l : list A) (body : A → M unit) : M unit :=
  match l with
  | [] => ret tt
  | x :: l' => body x ;; for_each l' body
  end.

(** ** Heap primitives *)

Definition alloc (o : object) : M loc := λ σ, (Ok (length σ), σ ++ [o]).

Definition store (l : loc) (o : object) : M unit := λ σ, (Ok tt, <[l:=o]> σ).

(** A computation that only reads the heap. *)
Definition read {A} (f : heap → result A) : M A := λ σ, (f σ, σ).

(** The dictionary behind a value; anything else is not a mapping. *)
Definition dict_of (σ : heap) (x : value) : result dict :=
  match x with
  | VRef l => match σ !! l with
              | Some (ODict c) => Ok c
              | _ => Err TypeError
              end
  | _ => Err TypeError
  end.

(** [self.__dict__] *)
Definition attrs_of (σ : heap) (self : loc) : result dict :=
  match σ !! self with
  | Some (OInstance d) => Ok d
  | _ => Err TypeError
  end.

(** [d[k]] *)
Definition dict_getitem (d : value) (k : string) : M value :=
  do c <- read (λ σ, dict_of σ d);
  match dict_get k c with
  | Some v => ret v
  | None => raise KeyError
  end.

(** [d[k] = v] *)
Definition dict_setitem (d : value) (k : string) (v : value) : M unit :=
  do c <- read (λ σ, dict_of σ d);
  match d with
  | VRef l => store l (ODict (dict_set k v c))
  | _ => raise TypeError
  end.

(** [del d[k]] *)
Definition dict_delitem (d : value) (k : string) : M unit :=
  do c <- read (λ σ, dict_of σ d);
  match d with
  | VRef l =>
      if dict_mem k c then store l (ODict (dict_remove k c)) else raise KeyError
  | _ => raise TypeError
  end.

(** [d.pop(k, default)] *)
Definition dict_pop (d : value) (k : string) (default : value) : M value :=
  do c <- read (λ σ, dict_of σ d);
  match d, dict_get k c with
  | VRef l, Some v => store l (ODict (dict_remove k c)) ;; ret v
  | _, _ => ret default
  end.

(** What [x.copy()] copies: the contents of a dict or of a list. *)
Definition copy_of (σ : heap) (x : value) : result object :=
  match x with
  | VRef l => match σ !! l with
              | Some (ODict c) => Ok (ODict c)
              | Some (OList c) => Ok (OList c)
              | _ => Err AttributeError
              end
  | _ => Err AttributeError
  end.

(** [x.copy()]: a shallow copy, as a new object. *)
Definition py_copy (x : value) : M value :=
  do o <- read (λ σ, copy_of σ x);
  do l' <- alloc o;
  ret (VRef l').

(** The elements an iteration over [x] yields: the items of a list or of a
    tuple, the keys of a dict, the characters of a string, the bytes of a
    byte string. *)
Definition iter_of (σ : heap) (x : value) : result (list value) :=
  match x with
  | VRef l => match σ !! l with
              | Some (OList c) => Ok c
              | Some (ODict c) => Ok (map VStr (dict_keys c))
              | _ => Err TypeError
              end
  | VPair a b => Ok [a; b]
  | VStr s => Ok (map (λ c, VStr (String c EmptyString)) (String.list_ascii_of_string s))
  | VBytes b => Ok (map (λ c, VInt (Z.of_N (Byte.to_N c))) b)
  | _ => Err TypeError
  end.

(** [x.extend(items)]: lists only. *)
Definition list_extend (x : value) (items : list value) : M unit :=
  do c <- read (λ σ, match x with
                     | VRef l => match σ !! l with
                                 | Some (OList c) => Ok c
                                 | _ => Err AttributeError
                                 end
                     | _ => Err AttributeError
                     end);
  match x with
  | VRef l => store l (OList (c ++ items))
  | _ => raise AttributeError
  end.

(** [a, b = x] *)
Definition unpack2 (x : value) : M (value * value) :=
  do xs <- read (λ σ, iter_of σ x);
  match xs with
  | [a; b] => ret (a, b)
  | _ => raise ValueError
  end.

(** ** The host: the attribute protocol of [torch.nn.Module]

    The mixin is written against a host that is a [torch.nn.Module]: it
    calls [hasattr], [getattr], [setattr] and [add_module] on [self] and
    reads [self.__dict__] and its ["_modules"] entry.  That class is not
    part of this repository.  Its protocol is modelled as far as the mixin
    relies on it:
    - attribute lookup finds an entry of the instance dictionary first
      and a child registered in [_modules] otherwise;
    - assigning a module stores it as a child under that name (and drops
      an instance-dictionary entry of the same name), assigning anything
      else writes the instance dictionary;
    - [add_module] stores the child, overwriting a child of that name. *)

Definition getattr_in (σ : heap) (self : loc) (name : string) : result value :=
  match σ !! self with
  | Some (OInstance d) =>
      match dict_get name d with
      | Some v => Ok v
      | None =>
          match dict_get "_modules" d with
          | None => Err AttributeError
          | Some mods =>
              match dict_of σ mods with
              | Ok m => match dict_get name m with
                        | Some v => Ok v
                        | None => Err AttributeError
                        end
              | Err e => Err e
              end
          end
      end
  | _ => Err TypeError
  end.

Definition getattr (self : loc) (name : string) : M value :=
  read (λ σ, getattr_in σ self name).

(** [hasattr] answers [False] on [AttributeError] and lets any other
    exception through. *)
Definition hasattr (self : loc) (name : string) : M bool :=
  read (λ σ, match getattr_in σ self name with
             | Ok _ => Ok true
             | Err AttributeError => Ok false
             | Err e => Err e
             end).

Definition is_module (v : value) : bool :=
  match v with VModule _ => true | _ => false end.

Definition setattr (self : loc) (name : string) (v : value) : M unit :=
  do d <- read (λ σ, attrs_of σ self);
  if is_module v then
    match dict_get "_modules" d with
    | None => raise AttributeError
    | Some mods =>
        store self (OInstance (dict_remove name d)) ;;
        dict_setitem mods name v
    end
  else store self (OInstance (dict_set name v d)).

Definition add_module (self : loc) (name : string) (v : value) : M unit :=
  do mods <- getattr self "_modules";
  dict_setitem mods name v.

(** [self.__dict__.update(d)] *)
Definition attrs_update (self : loc) (d : value) : M unit :=
  do src <- read (λ σ, dict_of σ d);
  do old <- read (λ σ, attrs_of σ self);
  store self (OInstance (dict_update old src)).

(** ** isinstance tests *)

Definition isinstance_GraphModule (v : value) : bool :=
  match v with
  | VModule m => match m_class m with GraphModule => true | _ => false end
  | _ => false
  end.

(** [isinstance(v, (fx.GraphModule, torch._dynamo.OptimizedModule))] *)
Definition isinstance_fx (v : value) : bool :=
  match v with
  | VModule m => match m_class m with
                 | GraphModule | OptimizedModule => true
                 | _ => false
                 end
  | _ => false
  end.

Definition isinstance_ScriptModule (v : value) : bool :=
  match v with
  | VModule m => match m_class m with ScriptModule => true | _ => false end
  | _ => false
  end.

Definition isinstance_str (v : value) : bool :=
  match v with VStr _ => true | _ => false end.

Definition isinstance_bytes (v : value) : bool :=
  match v with VBytes _ => true | _ => false end.

(** ** External services

    What the mixin calls outside itself: the process-wide optimization
    defaults, the TorchScript compiler of [e3nn.util.jit], [pickle] and
    [torch.jit.save]/[torch.jit.load], and whether the classes after
    [CodeGenMixin] in the host's method resolution order define
    [__getstate__] / [__setstate__]. *)
Record services := Services {
  jit_mode : string;          (* e3nn.get_optimization_defaults()["jit_mode"] *)
  jit_compile : value → result value;
                              (* e3nn.util.jit.compile(graphmod, recurse=False) *)
  pickle_dumps : value → result bytes;
  pickle_loads : bytes → result value;
  jit_save : value → result bytes;    (* torch.jit.save into a BytesIO *)
  jit_load : bytes → result value;    (* torch.jit.load from a BytesIO *)
  super_getstate : bool;      (* hasattr(super(CodeGenMixin, self), "__getstate__") *)
  super_setstate : bool       (* hasattr(super(CodeGenMixin, self), "__setstate__") *)
}.

Section CodeGenMixin.

Variable env : services.

(** ** [CodeGenMixin._codegen_register] *)

Definition register_unit (self : loc) (fname : string) (graphmod : value) : M unit :=
  assert (isinstance_GraphModule graphmod) ;;
  do scriptmod <-
    (if String.eqb (jit_mode env) "script" then
       do scriptmod <- lift (jit_compile env graphmod);
       assert (isinstance_ScriptModule scriptmod) ;;
       ret scriptmod
     else ret graphmod);
  add_module self fname scriptmod.

Definition _codegen_register (self : loc) (funcs : dict) : M unit :=
  do has <- hasattr self "__codegen__";
  (if has then ret tt
   else do l <- alloc (OList []); setattr self "__codegen__" (VRef l)) ;;
  do reg <- getattr self "__codegen__";
  list_extend reg (map VStr (dict_keys funcs)) ;;
  for_each funcs (λ kv, register_unit self (fst kv) (snd kv)).

(** ** [CodeGenMixin.__getstate__] *)

(** The base state.  A [__getstate__] further up the class hierarchy is
    that of [torch.nn.Module], a shallow copy of the instance dictionary;
    without one the instance dictionary itself is used. *)
Definition base_getstate (self : loc) : M dict :=
  if super_getstate env then
    do d <- read (λ σ, attrs_of σ self);
    do out <- alloc (ODict d);
    read (λ σ, dict_of σ (VRef out))
  else read (λ σ, attrs_of σ self).

(** The encoded record of a managed submodule: the body of the
    [if isinstance ... elif ... else: assert False] in the loop. *)
Definition encode_unit (smod : value) : result value :=
  if isinstance_fx smod then
    match pickle_dumps env smod with
    | Ok buffer => Ok (VPair (VStr "fx") (VBytes buffer))
    | Err e => Err e
    end
  else if isinstance_ScriptModule smod then
    match jit_save env smod with
    | Ok buffer => Ok (VPair (VStr "torchscript") (VBytes buffer))
    | Err e => Err e
    end
  else Err AssertionError.

(** One turn of the loop over [self.__codegen__]. *)
Definition save_unit (self : loc) (out codegen_state : value) (fname : value) : M unit :=
  match fname with
  | VStr fname =>
      do smod <- getattr self fname;
      do entry <- lift (encode_unit smod);
      dict_setitem codegen_state fname entry ;;
      do mods <- dict_getitem out "_modules";
      dict_delitem mods fname
  | _ => raise TypeError      (* getattr(self, fname): the name must be a string *)
  end.

Definition __getstate__ (self : loc) : M value :=
  do base <- base_getstate self;
  do out <- alloc (ODict base);                  (* out = out.copy() *)
  let out := VRef out in
  do mods <- dict_getitem out "_modules";
  do mods' <- py_copy mods;
  dict_setitem out "_modules" mods' ;;
  do codegen_state <- alloc (ODict []);
  let codegen_state := VRef codegen_state in
  do has <- hasattr self "__codegen__";
  if has then
    do reg <- getattr self "__codegen__";
    do names <- read (λ σ, iter_of σ reg);
    for_each names (save_unit self out codegen_state) ;;
    dict_setitem out "__codegen__" codegen_state ;;
    ret out
  else ret out.

(** ** [CodeGenMixin.__setstate__] *)

(** Applying the base state: [torch.nn.Module.__setstate__] updates the
    instance dictionary, as the fallback does. *)
Definition base_setstate (self : loc) (d : value) : M unit :=
  if super_setstate env then attrs_update self d
  else attrs_update self d.

(** Decoding a buffer by its tag: the body of the
    [if buffer_type == "fx" ... elif ... else: raise NotImplementedError]. *)
Definition decode_unit (buffer_type : string) (buffer : bytes) : result value :=
  if String.eqb buffer_type "fx" then
    match pickle_loads env buffer with
    | Ok smod => if isinstance_fx smod then Ok smod else Err AssertionError
    | Err e => Err e
    end
  else if String.eqb buffer_type "torchscript" then
    match jit_load env buffer with
    | Ok smod => if isinstance_ScriptModule smod then Ok smod else Err AssertionError
    | Err e => Err e
    end
  else Err NotImplementedError.

(** One turn of the loop over [codegen_state.items()].  Keys are strings
    in this model, which is what [assert isinstance(fname, str)] asks. *)
Definition load_unit (self : loc) (fname : string) (entry : value) : M unit :=
  do bb <- unpack2 entry;
  match fst bb, snd bb with
  | VStr buffer_type, VBytes buffer =>
      do smod <- lift (decode_unit buffer_type buffer);
      setattr self fname smod
  | _, _ => raise AssertionError
  end.

(** The [if codegen_state is not None:] block. *)
Definition restore_units (self : loc) (codegen_state : value) : M unit :=
  match codegen_state with
  | VNone => ret tt
  | _ =>
      do items <- read (λ σ, match dict_of σ codegen_state with
                             | Ok c => Ok c
                             | Err _ => Err AttributeError
                             end);
      for_each items (λ kv, load_unit self (fst kv) (snd kv)) ;;
      do keys <- read (λ σ, match dict_of σ codegen_state with
                            | Ok c => Ok (dict_keys c)
                            | Err _ => Err AttributeError
                            end);
      do l <- alloc (OList (map VStr keys));
      setattr self "__codegen__" (VRef l)
  end.

Definition __setstate__ (self : loc) (d : value) : M unit :=
  do d <- py_copy d;
  do codegen_state <- dict_pop d "__codegen__" VNone;
  base_setstate self d ;;
  restore_units self codegen_state.

End CodeGenMixin.

(** ** Observations on a host *)

(** The registry: the list stored under [__codegen__] in the instance
    dictionary. *)
Definition registry_in (σ : heap) (self : loc) : result (list value) :=
  match attrs_of σ self with
  | Ok d =>
      match dict_get "__codegen__" d with
      | Some (VRef l) => match σ !! l with
                         | Some (OList c) => Ok c
                         | _ => Err TypeError
                         end
      | Some _ => Err TypeError
      | None => Err AttributeError
      end
  | Err e => Err e
  end.

(** The child components: the dictionary stored under [_modules]. *)
Definition children_in (σ : heap) (self : loc) : result dict :=
  match attrs_of σ self with
  | Ok d =>
      match dict_get "_modules" d with
      | Some mods => dict_of σ mods
      | None => Err AttributeError
      end
  | Err e => Err e
  end.

(** [cls.__new__(cls)]: an instance with an empty dictionary, as pickle
    and [copy.deepcopy] create before they call [__setstate__]. *)
Definition new_host : M loc := alloc (OInstance []).

(** ** Notions the properties are stated with *)

(** [del] of every name in turn. *)
Definition remove_keys (ks : list string) (m : dict) : dict :=
  fold_left (λ acc k, dict_remove k acc) ks m.

(** What the registry is taken to be before a call: the list in place, or
    nothing yet (the first registration creates an empty one). *)
Definition registry_before (σ : heap) (self : loc) (reg : list value) : Prop :=
  registry_in σ self = Ok reg ∨
  (reg = [] ∧ getattr_in σ self "__codegen__" = Err AttributeError).

(** An empty registry: the list is empty, or the host has none. *)
Definition registry_empty (σ : heap) (self : loc) : Prop :=
  registry_in σ self = Ok [] ∨ registry_in σ self = Err AttributeError.

(** [k] names a child component of the host. *)
Definition has_child (σ : heap) (self : loc) (k : string) : Prop :=
  ∃ m, children_in σ self = Ok m ∧ k ∈ dict_keys m.

(** Every name of the list is a string that names a child. *)
Definition resolves (σ : heap) (self : loc) (reg : list value) : Prop :=
  ∀ x, x ∈ reg → ∃ s, x = VStr s ∧ has_child σ self s.

(** The invariant of the specification: the host has a registry, every
    name in it names a child, and no name appears twice. *)
Definition registry_invariant (σ : heap) (self : loc) : Prop :=
  ∃ reg, registry_in σ self = Ok reg ∧ resolves σ self reg ∧ NoDup reg.

(** A registry name that is no child of the host. *)
Definition dangling_name (σ : heap) (self : loc) (k : string) : Prop :=
  ∃ reg, registry_in σ self = Ok reg ∧ VStr k ∈ reg ∧
         ∀ m, children_in σ self = Ok m → k ∉ dict_keys m.

(** The units the compiler accepts, with what it makes of them. *)
Definition compiles_to (env : services) (kv : string * value) (s : value) : Prop :=
  isinstance_GraphModule (snd kv) = true ∧
  jit_compile env (snd kv) = Ok s ∧
  isinstance_ScriptModule s = true.

(** An entry the restore loop accepts. *)
Definition loadable (env : services) (kv : string * value) : Prop :=
  fst kv ≠ "_modules" ∧
  ∃ t b w, snd kv = VPair (VStr t) (VBytes b) ∧ decode_unit env t b = Ok w.

(** Python dictionaries have one entry for a key; the instance dictionary
    of the host is such a dictionary. *)
Definition unique_attrs (σ : heap) (self : loc) : Prop :=
  ∀ d, σ !! self = Some (OInstance d) → NoDup (dict_keys d).

(** The contract of the two codecs: what one writes for a module of its
    kind, the other reads back as a module of that kind. *)
Definition codec_roundtrip (env : services) : Prop :=
  (∀ v b, isinstance_fx v = true → pickle_dumps env v = Ok b →
          ∃ w, pickle_loads env b = Ok w ∧ isinstance_fx w = true) ∧
  (∀ v b, isinstance_ScriptModule v = true → jit_save env v = Ok b →
          ∃ w, jit_load env b = Ok w ∧ isinstance_ScriptModule w = true).

(** What pickle and [copy.deepcopy] do with a state: create an instance
    and hand it the state. *)
Definition restore_fresh (env : services) (blob : value) : M loc :=
  do h <- new_host;
  __setstate__ env h blob ;;
  ret h.

(** No value of the dictionary is a compiled module. *)
Definition no_script_module_in (d : dict) : Prop :=
  ∀ k v, (k, v) ∈ d → isinstance_ScriptModule v = false.

(** ** Statements of the specification that the code does not meet

    Written down as the specification has them, to be refuted on
    concrete hosts. *)

(** "The returned blob contains no compiled-form executable object": on
    a host whose registry names all resolve to symbolic or compiled
    modules, the state returned by snapshot has a tagged pair of plain
    bytes for every registered name and holds no compiled module, neither
    among the encoded units nor among the children. *)
Definition snapshot_free_of_script_modules
    (env : services) (σ : heap) (self : loc) : Prop :=
  ∀ reg blob σ' outd,
    registry_in σ self = Ok reg →
    (∀ x, x ∈ reg → ∃ s v, x = VStr s ∧ getattr_in σ self s = Ok v ∧
            (isinstance_fx v = true ∨ isinstance_ScriptModule v = true)) →
    __getstate__ env self σ = (Ok blob, σ') →
    dict_of σ' blob = Ok outd →
    (∃ v section, dict_get "__codegen__" outd = Some v ∧ dict_of σ' v = Ok section ∧
       no_script_module_in section ∧
       ∀ x, x ∈ reg → ∃ s tag b, x = VStr s ∧
              dict_get s section = Some (VPair (VStr tag) (VBytes b)) ∧
              (tag = "fx" ∨ tag = "torchscript")) ∧
    (∃ v mods, dict_get "_modules" outd = Some v ∧ dict_of σ' v = Ok mods ∧
       no_script_module_in mods).

(** "Absent section: proceed with empty registry": a state without an
    encoded-units section restores normally, its entries are applied to
    the host, and the host is left with an empty registry. *)
Definition restore_without_section_empties_registry
    (env : services) (σ : heap) (self : loc) (blob : value) : Prop :=
  ∀ dd a,
    dict_of σ blob = Ok dd → dict_get "__codegen__" dd = None →
    attrs_of σ self = Ok a →
    let r := __setstate__ env self blob σ in
    fst r = Ok tt ∧
    attrs_of (snd r) self = Ok (dict_update a dd) ∧
    registry_empty (snd r) self.

(** "A kind outside the two recognized tags is a fatal format error
    (unsupported encoding)": a state whose section has an entry with
    another tag makes restore raise the unsupported-encoding error. *)
Definition unknown_tag_raises_NotImplementedError
    (env : services) (σ : heap) (self : loc) (blob : value) : Prop :=
  ∀ dd lc c k tag buf,
    dict_of σ blob = Ok dd →
    dict_get "__codegen__" dd = Some (VRef lc) →
    σ !! lc = Some (ODict c) →
    (k, VPair tag buf) ∈ c →
    tag ≠ VStr "fx" → tag ≠ VStr "torchscript" →
    fst (__setstate__ env self blob σ) = Err NotImplementedError.

(** "Every operation preserves the registry invariant", for
    registration: after a registration that ends normally the invariant
    still holds. *)
Definition register_keeps_invariant
    (env : services) (σ : heap) (self : loc) (funcs : dict) : Prop :=
  registry_invariant σ self →
  ∀ σ', _codegen_register env self funcs σ = (Ok tt, σ') →
        registry_invariant σ' self.

(** "If the compiler raises partway through the loop, some registry
    names do not resolve to any child": in script mode, when the compiler
    accepts the first units and raises on the next, the host is left with
    a registry name that names no child. *)
Definition compiler_failure_strands_a_name
    (env : services) (σ : heap) (self : loc) : Prop :=
  ∀ units n u rest compiled e,
    jit_mode env = "script" →
    Forall2 (compiles_to env) units compiled →
    isinstance_GraphModule u = true →
    jit_compile env u = Err e →
    let r := _codegen_register env self (units ++ (n, u) :: rest) σ in
    fst r = Err e ∧ ∃ k, dangling_name (snd r) self k.

(** ** A concrete set of services

    Stand-ins for pickle, TorchScript serialization and the compiler, used
    to run the mixin on concrete hosts: a module is written as one byte
    for its class followed by its body; the compiler turns a graph module
    with a non-empty body into a script module and fails on an empty one. *)
Module Toy.

Definition class_tag (c : module_class) : Byte.byte :=
  match c with
  | GraphModule => "g"%byte
  | OptimizedModule => "o"%byte
  | ScriptModule => "s"%byte
  | PlainModule => "p"%byte
  end.

Definition dumps (v : value) : result bytes :=
  match v with
  | VModule m => Ok (class_tag (m_class m) :: m_body m)
  | _ => Err (ExternalError 0)
  end.

Definition loads (b : bytes) : result value :=
  match b with
  | "g"%byte :: body => Ok (VModule (Module GraphModule body))
  | "o"%byte :: body => Ok (VModule (Module OptimizedModule body))
  | "s"%byte :: body => Ok (VModule (Module ScriptModule body))
  | "p"%byte :: body => Ok (VModule (Module PlainModule body))
  | _ => Err (ExternalError 1)
  end.

Definition compile (v : value) : result value :=
  match v with
  | VModule m =>
      match m_body m with
      | [] => Err (ExternalError 2)
      | _ => Ok (VModule (Module ScriptModule (m_body m)))
      end
  | _ => Err (ExternalError 2)
  end.

Definition env (mode : string) : services :=
  {| jit_mode := mode;
     jit_compile := compile;
     pickle_dumps := dumps;
     pickle_loads := loads;
     jit_save := dumps;
     jit_load := loads;
     super_getstate := true;
     super_setstate := true |}.

Definition graph (body : bytes) : value := VModule (Module GraphModule body).
Definition script (body : bytes) : value := VModule (Module ScriptModule body).

Definition plain (body : bytes) : value := VModule (Module PlainModule body).

(** The host is the first object of each of the heaps below. *)
Definition host : loc := 0.

(** A module instance with no children yet: [torch.nn.Module.__init__]
    has run. *)
Definition empty_host : heap :=
  [OInstance [("training", VInt 1); ("_modules", VRef 1)]; ODict []].

(** The host after [_codegen_register({"a": graph})] with [jit_mode]
    ["none"]. *)
Definition host_a : heap :=
  [OInstance [("training", VInt 1); ("_modules", VRef 1); ("__codegen__", VRef 2)];
   ODict [("a", graph ["x"%byte])];
   OList [VStr "a"]].

(** The same host after the same registration once more. *)
Definition host_aa : heap :=
  [OInstance [("training", VInt 1); ("_modules", VRef 1); ("__codegen__", VRef 2)];
   ODict [("a", graph ["x"%byte])];
   OList [VStr "a"; VStr "a"]].

(** A host with one registered graph module ["f"] and a script module
    ["g"] that was assigned as an ordinary child, not registered. *)
Definition host_fg : heap :=
  [OInstance [("training", VInt 1); ("_modules", VRef 1); ("__codegen__", VRef 2)];
   ODict [("f", graph ["x"%byte]); ("g", script ["y"%byte])];
   OList [VStr "f"]].

(** A host with a registered graph module, a registered script module and
    an ordinary child between them. *)
Definition host_fs : heap :=
  [OInstance [("training", VInt 1); ("_modules", VRef 1); ("__codegen__", VRef 2)];
   ODict [("f", graph ["x"%byte]); ("lin", plain ["w"%byte]); ("s", script ["y"%byte])];
   OList [VStr "f"; VStr "s"]].

(** The three units of the order-preservation scenario. *)
Definition units_abc : dict :=
  [("a", graph ["x"%byte]); ("b", graph ["y"%byte]); ("c", graph ["z"%byte])].

(** Register ["a"], ["b"], ["c"] under mode ["none"], snapshot, and
    create the instance to restore into: the state returned, the new
    instance, and the heap at that point. *)
Definition abc_snapshot : result (value * loc) * heap :=
  Eval vm_compute in
    (_codegen_register (env "none") host units_abc ;;
     do blob <- __getstate__ (env "none") host;
     do h <- new_host;
     ret (blob, h)) empty_host.

(** [host_a] and a state without an encoded-units section, at location 3. *)
Definition host_a_and_plain_state : heap :=
  host_a ++ [ODict [("training", VInt 0)]].

(** A fresh instance (location 0) and a state (location 1) whose section
    (location 2) has an entry that does not decode followed by an entry
    with an unknown tag. *)
Definition corrupt_then_bogus : heap :=
  [OInstance [];
   ODict [("_modules", VRef 3); ("__codegen__", VRef 2)];
   ODict [("a", VPair (VStr "fx") (VBytes [])); ("b", VPair (VStr "bogus") (VBytes []))];
   ODict []].

(** The same with a single entry: an unknown tag and a buffer that is a
    string, not bytes. *)
Definition bogus_with_text : heap :=
  [OInstance [];
   ODict [("_modules", VRef 3); ("__codegen__", VRef 2)];
   ODict [("a", VPair (VStr "bogus") (VStr "text"))];
   ODict []].

(** The same with a single, well-typed entry under an unknown tag. *)
Definition bogus_first : heap :=
  [OInstance [];
   ODict [("_modules", VRef 3); ("__codegen__", VRef 2)];
   ODict [("a", VPair (VStr "bogus") (VBytes []))];
   ODict []].

End Toy.

(** ** Notions of the further properties *)

(** What registration installs for a unit: the unit itself, or, in script
    mode, what the compiler makes of it. *)
Definition installs (env : services) (kv : string * value) (s : value) : Prop :=
  isinstance_GraphModule (snd kv) = true ∧
  if String.eqb (jit_mode env) "script"
  then jit_compile env (snd kv) = Ok s ∧ isinstance_ScriptModule s = true
  else s = snd kv.

(** The record snapshot writes for a registry name: the name resolves to
    a module of the host, which is encoded. *)
Definition saved_as (env : services) (σ : heap) (self : loc) (s : string) (e : value) : Prop :=
  ∃ smod, getattr_in σ self s = Ok smod ∧ encode_unit env smod = Ok e.

(** An entry the restore loop accepts, with the module it decodes to. *)
Definition decodes_to (env : services) (kv : string * value) (w : value) : Prop :=
  ∃ t b, snd kv = VPair (VStr t) (VBytes b) ∧ decode_unit env t b = Ok w.

(** The contract of codecs that lose nothing: what one writes for a
    module of its kind, the other reads back as that module. *)
Definition codec_exact (env : services) : Prop :=
  (∀ v b, isinstance_fx v = true → pickle_dumps env v = Ok b → pickle_loads env b = Ok v) ∧
  (∀ v b, isinstance_ScriptModule v = true → jit_save env v = Ok b → jit_load env b = Ok v).

(** ** More concrete hosts and states *)
Module Cases.

(** A module instance with one ordinary child and nothing registered. *)
Definition host_lin : heap :=
  [OInstance [("training", VInt 1); ("_modules", VRef 1)];
   ODict [("lin", Toy.plain ["w"%byte])]].

(** An instance on which [torch.nn.Module.__init__] has not run. *)
Definition bare_host : heap := [OInstance [("training", VInt 1)]].

(** Two units that compile. *)
Definition units_ab : list (string * value) :=
  [("a", Toy.graph ["x"%byte]); ("b", Toy.graph ["y"%byte])].

(** The host left by the registration, under mode ["script"], of three
    units of which the second does not compile. *)
Definition host_after_failure : heap :=
  Eval vm_compute in
    snd (_codegen_register (Toy.env "script") Toy.host
           [("a", Toy.graph ["x"%byte]); ("b", Toy.graph []); ("c", Toy.graph ["z"%byte])]
           Toy.empty_host).

(** A host whose registered child ["f"] was replaced by an ordinary
    module. *)
Definition host_f_replaced : heap :=
  [OInstance [("training", VInt 1); ("_modules", VRef 1); ("__codegen__", VRef 2)];
   ODict [("f", Toy.plain ["w"%byte])];
   OList [VStr "f"]].

(** [Toy.host_a] followed by a state (location 3) with its dictionary
    of children (location 4) and its section (location 5), which holds the
    unit ["b"]. *)
Definition host_a_and_state_b : heap :=
  Toy.host_a ++
  [ODict [("training", VInt 0); ("_modules", VRef 4); ("__codegen__", VRef 5)];
   ODict [("lin", Toy.plain ["w"%byte])];
   ODict [("b", VPair (VStr "fx") (VBytes ["g"%byte; "y"%byte]))]].

(** A new instance (location 0) and a state (location 1) with its
    dictionary of children (location 2) and a section (location 3) whose
    second entry has an unknown tag. *)
Definition new_host_and_bad_state : heap :=
  [OInstance [];
   ODict [("training", VInt 0); ("_modules", VRef 2); ("__codegen__", VRef 3)];
   ODict [];
   ODict [("a", VPair (VStr "fx") (VBytes ["g"%byte; "x"%byte]));
          ("b", VPair (VStr "bogus") (VBytes []))]].

(** Two new instances (locations 0 and 1) and a state (location 2) with
    its dictionary of children (location 3) and its section (location
    4). *)
Definition two_hosts_and_state : heap :=
  [OInstance [];
   OInstance [];
   ODict [("training", VInt 0); ("_modules", VRef 3); ("__codegen__", VRef 4)];
   ODict [];
   ODict [("a", VPair (VStr "fx") (VBytes ["g"%byte; "x"%byte]))]].

(** A new instance (location 0) and a state (location 1) with its
    dictionary of children (location 2) and a section (location 3) whose
    entry holds a script module where the byte string should be. *)
Definition new_host_and_module_state : heap :=
  [OInstance [];
   ODict [("training", VInt 0); ("_modules", VRef 2); ("__codegen__", VRef 3)];
   ODict [];
   ODict [("a", VPair (VStr "torchscript") (Toy.script ["x"%byte]))]].

End Cases.

(** Distinctness of the names of a concrete list. *)
Ltac toy_nodup :=
  repeat (apply NoDup_cons_2;
          [rewrite ?not_elem_of_cons; repeat split; (discriminate || apply not_elem_of_nil)|]);
  apply NoDup_nil_2.

(** * Properties *)

Global Instance VStr_inj : Inj (=) (=) VStr.
Proof. by intros ?? [=]. Qed.

(** ** Dictionaries *)

Lemma eqb_refl_true (k : string) : String.eqb k k = true.
Proof. apply String.eqb_refl. Qed.

Lemma eqb_ne_false (k k' : string) : k ≠ k' → String.eqb k k' = false.
Proof. intros H. apply String.eqb_neq. exact H. Qed.

Lemma dict_get_set_eq k v d : dict_get k (dict_set k v d) = Some v.
Proof.
  induction d as [|[k' v'] d IH]; simpl.
  - by rewrite eqb_refl_true.
  - destruct (String.eqb k' k) eqn:E; simpl.
    + by rewrite eqb_refl_true.
    + by rewrite E.
Qed.

Lemma dict_get_set_ne k k' v d : k ≠ k' → dict_get k' (dict_set k v d) = dict_get k' d.
Proof.
  intros Hne. induction d as [|[k0 v0] d IH]; simpl.
  - by rewrite eqb_ne_false.
  - destruct (String.eqb k0 k) eqn:E; simpl.
    + apply String.eqb_eq in E. subst k0. by rewrite eqb_ne_false.
    + by rewrite IH.
Qed.

Lemma dict_get_remove_eq k d : dict_get k (dict_remove k d) = None.
Proof.
  induction d as [|[k0 v0] d IH]; simpl; [done|].
  destruct (String.eqb k0 k) eqn:E; simpl; [done|]. by rewrite E.
Qed.

Lemma dict_get_remove_ne k k' d : k ≠ k' → dict_get k' (dict_remove k d) = dict_get k' d.
Proof.
  intros Hne. induction d as [|[k0 v0] d IH]; simpl; [done|].
  destruct (String.eqb k0 k) eqn:E; simpl.
  - apply String.eqb_eq in E. subst k0. by rewrite eqb_ne_false.
  - by rewrite IH.
Qed.

Lemma dict_get_None k d : dict_get k d = None ↔ k ∉ dict_keys d.
Proof.
  induction d as [|[k0 v0] d IH]; simpl.
  - split; [intros _; apply not_elem_of_nil | done].
  - rewrite not_elem_of_cons. destruct (String.eqb k0 k) eqn:E.
    + apply String.eqb_eq in E. subst. split; [done | intros [? _]; done].
    + apply String.eqb_neq in E. rewrite IH. split; [intros; split; congruence | tauto].
Qed.

Lemma dict_get_Some_key k v d : dict_get k d = Some v → k ∈ dict_keys d.
Proof.
  intros H. destruct (decide (k ∈ dict_keys d)) as [|Hn]; [done|].
  apply dict_get_None in Hn. congruence.
Qed.

Lemma dict_mem_true k d : dict_mem k d = true ↔ k ∈ dict_keys d.
Proof.
  unfold dict_mem. destruct (dict_get k d) eqn:E.
  - split; [intros _; by eapply dict_get_Some_key | done].
  - split; [done | intros H; by apply dict_get_None in E].
Qed.

Lemma dict_keys_set k v d :
  dict_keys (dict_set k v d) = if dict_mem k d then dict_keys d else dict_keys d ++ [k].
Proof.
  unfold dict_mem. induction d as [|[k0 v0] d IH]; simpl; [done|].
  destruct (String.eqb k0 k) eqn:E; simpl.
  - apply String.eqb_eq in E. by subst.
  - rewrite IH. by destruct (dict_get k d).
Qed.

Lemma dict_keys_set_elem k k' v d :
  k' ∈ dict_keys (dict_set k v d) ↔ k' = k ∨ k' ∈ dict_keys d.
Proof.
  rewrite dict_keys_set. destruct (dict_mem k d) eqn:E.
  - apply dict_mem_true in E. split; [tauto | intros [->|]; done].
  - rewrite elem_of_app, list_elem_of_singleton. tauto.
Qed.

Lemma dict_keys_remove_elem k k' d :
  k' ∈ dict_keys (dict_remove k d) ↔ k' ≠ k ∧ k' ∈ dict_keys d.
Proof.
  unfold dict_keys, dict_remove. rewrite !list_elem_of_In, !in_map_iff. split.
  - intros [[k0 v0] [<- Hin]]. apply filter_In in Hin as [Hin Hb]. simpl in *.
    split; [|by exists (k0, v0)].
    intros ->. by rewrite eqb_refl_true in Hb.
  - intros [Hne [[k0 v0] [<- Hin]]]. exists (k0, v0). split; [done|].
    apply filter_In. split; [done|]. simpl in *. by rewrite eqb_ne_false.
Qed.

Lemma dict_keys_set_NoDup k v d : NoDup (dict_keys d) → NoDup (dict_keys (dict_set k v d)).
Proof.
  intros H. rewrite dict_keys_set. destruct (dict_mem k d) eqn:E; [done|].
  apply NoDup_app. split; [done|]. split; [|apply NoDup_singleton].
  intros x Hx ->%list_elem_of_singleton.
  apply dict_mem_true in Hx. congruence.
Qed.

Lemma dict_keys_remove_NoDup k d : NoDup (dict_keys d) → NoDup (dict_keys (dict_remove k d)).
Proof.
  induction d as [|[k0 v0] d IH]; simpl; [done|].
  intros H. apply NoDup_cons in H as [Hn H].
  destruct (String.eqb k0 k); simpl; [auto|].
  apply NoDup_cons. split; [|auto].
  intros Hin. apply dict_keys_remove_elem in Hin. tauto.
Qed.

(** [d.update(src)] read back: a key of [src] has its value from [src],
    any other keeps the one it had. *)
Lemma dict_get_update k d src :
  NoDup (dict_keys src) →
  dict_get k (dict_update d src) =
    match dict_get k src with Some v => Some v | None => dict_get k d end.
Proof.
  unfold dict_update. revert d. induction src as [|[k0 v0] src IH]; intros d Hnd; simpl; [done|].
  apply NoDup_cons in Hnd as [Hn Hnd]. rewrite IH by done. simpl.
  destruct (String.eqb k0 k) eqn:E.
  - apply String.eqb_eq in E. subst k0.
    apply dict_get_None in Hn. simpl in Hn. rewrite Hn. apply dict_get_set_eq.
  - apply String.eqb_neq in E. by rewrite dict_get_set_ne.
Qed.

Lemma dict_get_update_None k d src :
  dict_get k src = None → dict_get k (dict_update d src) = dict_get k d.
Proof.
  unfold dict_update. revert d. induction src as [|[k0 v0] src IH]; intros d; simpl; [done|].
  destruct (String.eqb k0 k) eqn:E; [done|]. intros H.
  rewrite IH by done. simpl. apply String.eqb_neq in E. by rewrite dict_get_set_ne.
Qed.

(** ** Running computations *)

Lemma bind_Ok_inv {A B} (m : M A) (f : A → M B) σ b σ' :
  bind m f σ = (Ok b, σ') → ∃ a σ1, m σ = (Ok a, σ1) ∧ f a σ1 = (Ok b, σ').
Proof.
  unfold bind. destruct (m σ) as [[a|e] σ1]; [eauto | discriminate].
Qed.

Lemma bind_run {A B} (m : M A) (f : A → M B) σ a σ1 :
  m σ = (Ok a, σ1) → bind m f σ = f a σ1.
Proof. unfold bind. by intros ->. Qed.

Lemma bind_fail {A B} (m : M A) (f : A → M B) σ e σ1 :
  m σ = (Err e, σ1) → bind m f σ = (Err e, σ1).
Proof. unfold bind. by intros ->. Qed.

Lemma for_each_app {A} (l1 l2 : list A) (body : A → M unit) σ :
  for_each (l1 ++ l2) body σ =
    match for_each l1 body σ with
    | (Ok _, σ1) => for_each l2 body σ1
    | (Err e, σ1) => (Err e, σ1)
    end.
Proof.
  revert σ. induction l1 as [|x l1 IH]; intros σ; simpl; [done|].
  unfold bind. destruct (body x σ) as [[[]|e] σ1]; [apply IH | done].
Qed.

(** A property of the heap that every turn of a loop keeps, however the
    turn ends, holds when the loop ends, however it ends. *)
Lemma for_each_preserves {A} (P : heap → Prop) (body : A → M unit) l :
  (∀ x σ, P σ → P (snd (body x σ))) →
  ∀ σ, P σ → P (snd (for_each l body σ)).
Proof.
  intros Hbody. induction l as [|x l IH]; intros σ HP; simpl; [done|].
  unfold bind. specialize (Hbody x σ HP).
  destruct (body x σ) as [[[]|e] σ1]; simpl in *; [by apply IH | done].
Qed.

(** A loop that ends normally has run every turn normally. *)
Lemma for_each_Ok_elem {A} (body : A → M unit) l σ σ' x :
  for_each l body σ = (Ok tt, σ') → x ∈ l →
  ∃ σa σb, body x σa = (Ok tt, σb).
Proof.
  revert σ. induction l as [|y l IH]; intros σ Hrun Hin; [by apply elem_of_nil in Hin|].
  simpl in Hrun. apply bind_Ok_inv in Hrun as ([] & σ1 & Hy & Hrest).
  apply elem_of_cons in Hin as [->|Hin]; eauto.
Qed.

(** ** Reading the heap *)

Lemma attrs_of_Ok σ self d : attrs_of σ self = Ok d ↔ σ !! self = Some (OInstance d).
Proof.
  unfold attrs_of. destruct (σ !! self) as [[]|]; split; intros; simplify_eq; done.
Qed.

Lemma dict_of_Ok σ x c : dict_of σ x = Ok c ↔ ∃ l, x = VRef l ∧ σ !! l = Some (ODict c).
Proof.
  unfold dict_of. split.
  - destruct x; try discriminate. destruct (σ !! l) as [[]|] eqn:E; intros; simplify_eq. eauto.
  - intros (l & -> & ->). done.
Qed.

(** Overwriting a dictionary with a dictionary. *)
Lemma lookup_store_dict_eq (σ : heap) lm c c' :
  σ !! lm = Some (ODict c) → (<[lm:=ODict c']> σ) !! lm = Some (ODict c').
Proof. intros H. apply list_lookup_insert_eq. by eapply lookup_lt_Some. Qed.

Lemma lookup_store_ne (σ : heap) lm o l :
  l ≠ lm → (<[lm:=o]> σ) !! l = σ !! l.
Proof. intros H. by apply list_lookup_insert_ne. Qed.

Lemma attrs_of_store_dict σ lm c c' self :
  σ !! lm = Some (ODict c) → attrs_of (<[lm:=ODict c']> σ) self = attrs_of σ self.
Proof.
  intros H. unfold attrs_of. destruct (decide (self = lm)) as [->|Hne].
  - by rewrite (lookup_store_dict_eq _ _ _ _ H), H.
  - by rewrite lookup_store_ne.
Qed.

Lemma registry_in_store_dict σ lm c c' self :
  σ !! lm = Some (ODict c) → registry_in (<[lm:=ODict c']> σ) self = registry_in σ self.
Proof.
  intros H. unfold registry_in. rewrite (attrs_of_store_dict _ _ _ _ _ H).
  destruct (attrs_of σ self) as [d|]; [|done].
  destruct (dict_get "__codegen__" d) as [[]|]; try done.
  destruct (decide (l = lm)) as [->|Hne].
  - by rewrite (lookup_store_dict_eq _ _ _ _ H), H.
  - by rewrite lookup_store_ne.
Qed.

Lemma children_in_store_dict σ lm c c' self d :
  σ !! lm = Some (ODict c) → attrs_of σ self = Ok d →
  dict_get "_modules" d = Some (VRef lm) →
  children_in (<[lm:=ODict c']> σ) self = Ok c'.
Proof.
  intros H Hd Hm. unfold children_in. rewrite (attrs_of_store_dict _ _ _ _ _ H), Hd, Hm.
  simpl. by rewrite (lookup_store_dict_eq _ _ _ _ H).
Qed.

(** ** [add_module] and [setattr] *)

Lemma add_module_Ok self k v σ d lm c :
  attrs_of σ self = Ok d → dict_get "_modules" d = Some (VRef lm) →
  σ !! lm = Some (ODict c) →
  add_module self k v σ = (Ok tt, <[lm:=ODict (dict_set k v c)]> σ).
Proof.
  intros Hd%attrs_of_Ok Hm Hc.
  unfold add_module, getattr, dict_setitem, bind, read, getattr_in, store, dict_of.
  by rewrite Hd, Hm, Hc.
Qed.

(** [add_module] writes nothing unless the host has a dictionary of
    children, and then that dictionary only. *)
Lemma add_module_cases self k v σ :
  (∃ e, add_module self k v σ = (Err e, σ)) ∨
  (∃ d lm c, attrs_of σ self = Ok d ∧ dict_get "_modules" d = Some (VRef lm) ∧
             σ !! lm = Some (ODict c) ∧
             add_module self k v σ = (Ok tt, <[lm:=ODict (dict_set k v c)]> σ)).
Proof.
  destruct (attrs_of σ self) as [d|e] eqn:Hd.
  - destruct (dict_get "_modules" d) as [mods|] eqn:Hm.
    + destruct (dict_of σ mods) as [c|e] eqn:Hc.
      * apply dict_of_Ok in Hc as (lm & -> & Hc). right. exists d, lm, c.
        repeat split; try done. by eapply add_module_Ok.
      * left. exists e. apply attrs_of_Ok in Hd.
        unfold add_module, getattr, dict_setitem, bind, read, getattr_in.
        by rewrite Hd, Hm, Hc.
    + left. exists AttributeError. apply attrs_of_Ok in Hd.
      unfold add_module, getattr, dict_setitem, bind, read, getattr_in.
      by rewrite Hd, Hm.
  - left. exists TypeError.
    unfold add_module, getattr, dict_setitem, bind, read, getattr_in.
    unfold attrs_of in Hd. destruct (σ !! self) as [[]|]; simplify_eq; done.
Qed.

(** ** Registration *)

Section Register.

Variable env : services.

(** A turn of the registration loop either raises and writes nothing, or
    stores one child in the host's dictionary of children. *)
Lemma register_unit_cases self k v σ :
  (∃ e, register_unit env self k v σ = (Err e, σ)) ∨
  (∃ d lm c w, attrs_of σ self = Ok d ∧ dict_get "_modules" d = Some (VRef lm) ∧
               σ !! lm = Some (ODict c) ∧
               register_unit env self k v σ = (Ok tt, <[lm:=ODict (dict_set k w c)]> σ)).
Proof.
  unfold register_unit, assert.
  destruct (isinstance_GraphModule v); [|left; by exists AssertionError].
  rewrite (bind_run _ _ σ tt σ) by done.
  destruct (String.eqb (jit_mode env) "script").
  - destruct (jit_compile env v) as [s|e] eqn:Hc.
    + destruct (isinstance_ScriptModule s) eqn:Hs.
      * rewrite (bind_run _ _ σ s σ) by (unfold bind, lift, ret; by rewrite Hs).
        destruct (add_module_cases self k s σ) as [[e He]|(d & lm & c & ? & ? & ? & ?)];
          [left; eauto | right; by exists d, lm, c, s].
      * left. exists AssertionError. apply bind_fail.
        unfold bind, lift, raise. by rewrite Hs.
    + left. exists e. by apply bind_fail.
  - rewrite (bind_run _ _ σ v σ) by done.
    destruct (add_module_cases self k v σ) as [[e He]|(d & lm & c & ? & ? & ? & ?)];
      [left; eauto | right; by exists d, lm, c, v].
Qed.

Lemma register_unit_registry self k v σ :
  registry_in (snd (register_unit env self k v σ)) self = registry_in σ self.
Proof.
  destruct (register_unit_cases self k v σ) as [[e ->]|(d & lm & c & w & _ & _ & Hc & ->)];
    [done|]. simpl. by eapply registry_in_store_dict.
Qed.

Lemma register_loop_registry self funcs σ :
  registry_in (snd (for_each funcs (λ kv, register_unit env self (fst kv) (snd kv)) σ)) self
  = registry_in σ self.
Proof.
  apply (for_each_preserves (λ σ', registry_in σ' self = registry_in σ self)); [|done].
  intros x σ' H. by rewrite register_unit_registry.
Qed.

Lemma registry_in_Ok σ self reg :
  registry_in σ self = Ok reg ↔
  ∃ d l, σ !! self = Some (OInstance d) ∧ dict_get "__codegen__" d = Some (VRef l) ∧
         σ !! l = Some (OList reg).
Proof.
  unfold registry_in, attrs_of. split.
  - destruct (σ !! self) as [[d| |]|] eqn:Hs; try discriminate.
    destruct (dict_get "__codegen__" d) as [[]|] eqn:Hg; try discriminate.
    destruct (σ !! l) as [[]|] eqn:Hl; try discriminate.
    intros [= ->]. eauto.
  - intros (d & l & -> & -> & ->). done.
Qed.

(** With a registry in place, registration extends it by the incoming
    names and then runs the loop. *)
Lemma register_with_registry self funcs σ d l reg :
  σ !! self = Some (OInstance d) → dict_get "__codegen__" d = Some (VRef l) →
  σ !! l = Some (OList reg) →
  _codegen_register env self funcs σ =
    for_each funcs (λ kv, register_unit env self (fst kv) (snd kv))
      (<[l:=OList (reg ++ map VStr (dict_keys funcs))]> σ).
Proof.
  intros Hs Hg Hl.
  unfold _codegen_register, hasattr, getattr, list_extend, bind, read, getattr_in, ret, store.
  repeat (rewrite ?Hs, ?Hg, ?Hl; simpl). done.
Qed.

Lemma registry_in_extend σ self d l reg reg' :
  σ !! self = Some (OInstance d) → dict_get "__codegen__" d = Some (VRef l) →
  σ !! l = Some (OList reg) →
  registry_in (<[l:=OList reg']> σ) self = Ok reg'.
Proof.
  intros Hs Hg Hl. apply registry_in_Ok. exists d, l. split; [|split; [done|]].
  - rewrite lookup_store_ne; [done|]. intros ->. congruence.
  - apply list_lookup_insert_eq. by eapply lookup_lt_Some.
Qed.

End Register.


(** ** Running [getattr] and [setattr] *)

Lemma getattr_in_attr σ self d k v :
  σ !! self = Some (OInstance d) → dict_get k d = Some v → getattr_in σ self k = Ok v.
Proof. intros Hs Hk. unfold getattr_in. by rewrite Hs, Hk. Qed.

Lemma setattr_plain_run σ self d k v :
  σ !! self = Some (OInstance d) → is_module v = false →
  setattr self k v σ = (Ok tt, <[self:=OInstance (dict_set k v d)]> σ).
Proof.
  intros Hs Hv. unfold setattr, bind, read, attrs_of, store. by rewrite Hs, Hv.
Qed.

Lemma setattr_module_run σ self d k v lm c :
  σ !! self = Some (OInstance d) → is_module v = true →
  dict_get "_modules" d = Some (VRef lm) → σ !! lm = Some (ODict c) →
  setattr self k v σ =
    (Ok tt, <[lm:=ODict (dict_set k v c)]> (<[self:=OInstance (dict_remove k d)]> σ)).
Proof.
  intros Hs Hv Hm Hc.
  assert (lm ≠ self) as Hne by (intros ->; congruence).
  unfold setattr, bind, read, attrs_of, store, dict_setitem, dict_of.
  rewrite Hs, Hv, Hm. unfold bind, read, store.
  by rewrite (lookup_store_ne _ _ _ _ Hne), Hc.
Qed.

(** A successful [setattr] of a module: what was read and what was
    written. *)
Lemma setattr_module_Ok_inv σ σ' self k v :
  is_module v = true → setattr self k v σ = (Ok tt, σ') →
  ∃ d lm c, σ !! self = Some (OInstance d) ∧ dict_get "_modules" d = Some (VRef lm) ∧
            σ !! lm = Some (ODict c) ∧
            σ' = <[lm:=ODict (dict_set k v c)]> (<[self:=OInstance (dict_remove k d)]> σ).
Proof.
  intros Hv. unfold setattr, bind, read, attrs_of.
  destruct (σ !! self) as [[d| |]|] eqn:Hs; try discriminate.
  rewrite Hv. destruct (dict_get "_modules" d) as [mods|] eqn:Hm; [|discriminate].
  unfold store, dict_setitem, bind, read. simpl.
  destruct (dict_of _ mods) as [c|] eqn:Hc; [|discriminate].
  apply dict_of_Ok in Hc as (lm & -> & Hc). intros [= <-].
  assert (lm ≠ self) as Hne.
  { intros ->. rewrite list_lookup_insert_eq in Hc by (by eapply lookup_lt_Some). done. }
  rewrite lookup_store_ne in Hc by done. by exists d, lm, c.
Qed.

(** ** Registration, continued *)

Section RegisterRun.

Variable env : services.

Lemma register_prologue self funcs σ d reg :
  σ !! self = Some (OInstance d) → registry_before σ self reg →
  ∃ σ1 d1,
    _codegen_register env self funcs σ =
      for_each funcs (λ kv, register_unit env self (fst kv) (snd kv)) σ1 ∧
    σ1 !! self = Some (OInstance d1) ∧
    dict_get "_modules" d1 = dict_get "_modules" d ∧
    registry_in σ1 self = Ok (reg ++ map VStr (dict_keys funcs)) ∧
    (∀ lm c, σ !! lm = Some (ODict c) → σ1 !! lm = Some (ODict c)).
Proof.
  intros Hs [Hreg|[-> Hno]].
  - apply registry_in_Ok in Hreg as (d' & l & Hs' & Hg & Hl). simplify_eq.
    exists (<[l:=OList (reg ++ map VStr (dict_keys funcs))]> σ), d.
    assert (l ≠ self) by (intros ->; congruence).
    split; [by eapply register_with_registry|].
    split; [by rewrite lookup_store_ne|]. split; [done|].
    split; [by eapply registry_in_extend|].
    intros lm c Hc. rewrite lookup_store_ne; [done|]. intros ->. congruence.
  - set (l := length σ).
    set (d1 := dict_set "__codegen__" (VRef l) d).
    set (σa := σ ++ [OList []]).
    set (σb := <[self:=OInstance d1]> σa).
    assert (self < length σ) as Hlt by (by eapply lookup_lt_Some).
    assert (σa !! self = Some (OInstance d)) as Hsa by (by apply lookup_app_l_Some).
    assert (σb !! self = Some (OInstance d1)) as Hsb.
    { apply list_lookup_insert_eq. unfold σa. rewrite length_app. lia. }
    assert (σb !! l = Some (OList [])) as Hlb.
    { unfold σb. rewrite lookup_store_ne by (unfold l; lia). by apply list_lookup_middle. }
    exists (<[l:=OList (map VStr (dict_keys funcs))]> σb), d1.
    split; [|split; [|split; [|split]]].
    + unfold _codegen_register.
      rewrite (bind_run _ _ σ false σ) by (unfold hasattr, read; by rewrite Hno).
      rewrite (bind_run _ _ σ tt σb).
      2:{ rewrite (bind_run _ _ σ l σa) by done. by apply setattr_plain_run. }
      rewrite (bind_run _ _ σb (VRef l) σb).
      2:{ unfold getattr, read. erewrite getattr_in_attr; [done..|]. apply dict_get_set_eq. }
      rewrite (bind_run _ _ σb tt (<[l:=OList (map VStr (dict_keys funcs))]> σb)); [done|].
      unfold list_extend, bind, read, store. by rewrite Hlb.
    + rewrite lookup_store_ne by (unfold l; lia). done.
    + unfold d1. by rewrite dict_get_set_ne.
    + apply registry_in_Ok. exists d1, l. split; [|split].
      * rewrite lookup_store_ne by (unfold l; lia). done.
      * apply dict_get_set_eq.
      * apply list_lookup_insert_eq. by eapply lookup_lt_Some.
    + intros lm c Hc. assert (lm < length σ) by (by eapply lookup_lt_Some).
      rewrite lookup_store_ne by (unfold l; lia).
      unfold σb. rewrite lookup_store_ne by (intros ->; congruence).
      by apply lookup_app_l_Some.
Qed.

Lemma register_unit_script_run self k v s σ d lm c :
  jit_mode env = "script" →
  isinstance_GraphModule v = true → jit_compile env v = Ok s →
  isinstance_ScriptModule s = true →
  σ !! self = Some (OInstance d) → dict_get "_modules" d = Some (VRef lm) →
  σ !! lm = Some (ODict c) →
  register_unit env self k v σ = (Ok tt, <[lm:=ODict (dict_set k s c)]> σ).
Proof.
  intros Hmode Hg Hc Hs Hself Hm Hlm. unfold register_unit.
  rewrite (bind_run _ _ σ tt σ) by (unfold assert; by rewrite Hg).
  rewrite (bind_run _ _ σ s σ).
  - eapply add_module_Ok; [by apply attrs_of_Ok|done..].
  - rewrite Hmode. simpl. unfold bind, lift, assert, ret. by rewrite Hc, Hs.
Qed.

Lemma register_unit_compile_error self k v e σ :
  jit_mode env = "script" →
  isinstance_GraphModule v = true → jit_compile env v = Err e →
  register_unit env self k v σ = (Err e, σ).
Proof.
  intros Hmode Hg Hc. unfold register_unit.
  rewrite (bind_run _ _ σ tt σ) by (unfold assert; by rewrite Hg).
  apply bind_fail. rewrite Hmode. simpl. apply bind_fail. unfold lift. by rewrite Hc.
Qed.

Lemma register_loop_script_run self units compiled :
  jit_mode env = "script" →
  Forall2 (compiles_to env) units compiled →
  ∀ σ d lm c,
    σ !! self = Some (OInstance d) → dict_get "_modules" d = Some (VRef lm) →
    σ !! lm = Some (ODict c) →
    for_each units (λ kv, register_unit env self (fst kv) (snd kv)) σ =
      (Ok tt, <[lm:=ODict (dict_update c (combine (dict_keys units) compiled))]> σ).
Proof.
  intros Hmode. induction 1 as [|[k v] s units compiled (Hg & Hc & Hs) _ IH];
    intros σ d lm c Hself Hm Hlm; simpl.
  - by rewrite list_insert_id.
  - assert (lm ≠ self) by (intros ->; congruence).
    erewrite bind_run; [|by eapply register_unit_script_run]. simpl.
    erewrite IH; [|by rewrite lookup_store_ne|done|by eapply lookup_store_dict_eq].
    by rewrite list_insert_insert_eq.
Qed.

End RegisterRun.

Lemma dict_keys_update_elem k d src :
  k ∈ dict_keys (dict_update d src) ↔ k ∈ dict_keys d ∨ k ∈ dict_keys src.
Proof.
  unfold dict_update. revert d. induction src as [|[k0 v0] src IH]; intros d; simpl.
  - split; [tauto | intros [|H]; [done | by apply elem_of_nil in H]].
  - rewrite IH, dict_keys_set_elem, elem_of_cons. tauto.
Qed.

Lemma dict_keys_combine_elem k (ks : list string) (vs : list value) :
  k ∈ dict_keys (combine ks vs) → k ∈ ks.
Proof.
  revert vs. induction ks as [|k0 ks IH]; intros [|v vs]; simpl;
    try (intros H; by apply elem_of_nil in H).
  rewrite !elem_of_cons. intros [->|H]; [by left | right; eauto].
Qed.


(** ** Objects allocated by the running call

    New objects are appended to the heap: with [pre] the heap before, the
    [k]-th object allocated since sits at [length pre + k]. *)

Lemma lookup_local0 (pre τ : list object) : (pre ++ τ) !! length pre = τ !! 0.
Proof. rewrite lookup_app_r by lia. by rewrite Nat.sub_diag. Qed.

Lemma lookup_local (pre τ : list object) k : (pre ++ τ) !! (length pre + k) = τ !! k.
Proof. rewrite lookup_app_r by lia. f_equal. lia. Qed.

Lemma insert_local0 (pre τ : list object) x : <[length pre:=x]> (pre ++ τ) = pre ++ <[0:=x]> τ.
Proof. rewrite <- (Nat.add_0_r (length pre)) at 1. apply insert_app_r. Qed.

Lemma insert_local (pre τ : list object) k x :
  <[length pre + k:=x]> (pre ++ τ) = pre ++ <[k:=x]> τ.
Proof. apply insert_app_r. Qed.

(** Successful reads stay as they are when the heap grows. *)
Lemma dict_of_mono σ τ x c : dict_of σ x = Ok c → dict_of (σ ++ τ) x = Ok c.
Proof.
  intros (l & -> & H)%dict_of_Ok. apply dict_of_Ok. exists l. split; [done|].
  by apply lookup_app_l_Some.
Qed.

Lemma getattr_in_mono σ τ self k v :
  getattr_in σ self k = Ok v → getattr_in (σ ++ τ) self k = Ok v.
Proof.
  unfold getattr_in. destruct (σ !! self) as [[d| |]|] eqn:Hs; try discriminate.
  rewrite (lookup_app_l_Some _ _ _ _ Hs).
  destruct (dict_get k d); [done|].
  destruct (dict_get "_modules" d) as [mods|]; [|done].
  destruct (dict_of σ mods) as [m|] eqn:Hm; [|done].
  by rewrite (dict_of_mono _ _ _ _ Hm).
Qed.

Lemma registry_in_mono σ τ self reg :
  registry_in σ self = Ok reg → registry_in (σ ++ τ) self = Ok reg.
Proof.
  intros (d & l & Hs & Hg & Hl)%registry_in_Ok. apply registry_in_Ok.
  exists d, l. split; [|split; [done|]]; by apply lookup_app_l_Some.
Qed.

Lemma children_in_Ok σ self m :
  children_in σ self = Ok m ↔
  ∃ d lm, σ !! self = Some (OInstance d) ∧ dict_get "_modules" d = Some (VRef lm) ∧
          σ !! lm = Some (ODict m).
Proof.
  unfold children_in, attrs_of. split.
  - destruct (σ !! self) as [[d| |]|] eqn:Hs; try discriminate.
    destruct (dict_get "_modules" d) as [mods|] eqn:Hg; try discriminate.
    intros (lm & -> & Hlm)%dict_of_Ok. eauto.
  - intros (d & lm & -> & -> & Hlm). apply dict_of_Ok. eauto.
Qed.

Lemma children_in_mono σ τ self m :
  children_in σ self = Ok m → children_in (σ ++ τ) self = Ok m.
Proof.
  intros (d & l & Hs & Hg & Hl)%children_in_Ok. apply children_in_Ok.
  exists d, l. split; [|split; [done|]]; by apply lookup_app_l_Some.
Qed.

(** ** Snapshot *)

Lemma dict_get_remove_keys k ks m :
  dict_get k (remove_keys ks m) = if bool_decide (k ∈ ks) then None else dict_get k m.
Proof.
  unfold remove_keys. revert m. induction ks as [|k0 ks IH]; intros m.
  - done.
  - cbn [fold_left]. rewrite IH. do 2 case_bool_decide; try done.
    + exfalso. rewrite elem_of_cons in *. tauto.
    + destruct (decide (k = k0)) as [->|Hne]; [apply dict_get_remove_eq|].
      exfalso. rewrite elem_of_cons in *. tauto.
    + apply dict_get_remove_ne. rewrite elem_of_cons in *. intros ->. tauto.
Qed.

Lemma dict_keys_remove_keys_elem k ks m :
  k ∈ dict_keys (remove_keys ks m) ↔ (k ∉ ks) ∧ k ∈ dict_keys m.
Proof.
  unfold remove_keys. revert m. induction ks as [|k0 ks IH]; intros m; simpl.
  - split; [intros; split; [apply not_elem_of_nil | done] | tauto].
  - rewrite IH, dict_keys_remove_elem, not_elem_of_cons. tauto.
Qed.

Section Snapshot.

Variable env : services.

Lemma encode_unit_Ok smod e :
  encode_unit env smod = Ok e →
  is_module smod = true ∧
  ∃ tag b, e = VPair (VStr tag) (VBytes b) ∧
    ((tag = "fx" ∧ isinstance_fx smod = true ∧ pickle_dumps env smod = Ok b) ∨
     (tag = "torchscript" ∧ isinstance_ScriptModule smod = true ∧ jit_save env smod = Ok b)).
Proof.
  unfold encode_unit. destruct (isinstance_fx smod) eqn:Hfx.
  - destruct (pickle_dumps env smod) as [b|] eqn:Hb; [|discriminate]. intros [= <-].
    split; [by destruct smod | exists "fx", b; split; [done|by left]].
  - destruct (isinstance_ScriptModule smod) eqn:Hs; [|discriminate].
    destruct (jit_save env smod) as [b|] eqn:Hb; [|discriminate]. intros [= <-].
    split; [by destruct smod | exists "torchscript", b; split; [done|by right]].
Qed.

(** One turn of the snapshot loop, on the three objects the call has
    allocated: the copied state, the copied children, the encoded units. *)
Lemma save_unit_run self pre outd o c v :
  dict_get "_modules" outd = Some (VRef (length pre + 1)) →
  let σ := pre ++ [ODict outd; o; ODict c] in
  save_unit env self (VRef (length pre)) (VRef (length pre + 2)) v σ =
    match v with
    | VStr s =>
        match getattr_in σ self s with
        | Ok smod =>
            match encode_unit env smod with
            | Ok e =>
                let σ' := pre ++ [ODict outd; o; ODict (dict_set s e c)] in
                match o with
                | ODict m =>
                    if dict_mem s m
                    then (Ok tt, pre ++ [ODict outd; ODict (dict_remove s m);
                                         ODict (dict_set s e c)])
                    else (Err KeyError, σ')
                | _ => (Err TypeError, σ')
                end
            | Err x => (Err x, σ)
            end
        | Err x => (Err x, σ)
        end
    | _ => (Err TypeError, σ)
    end.
Proof.
  intros Hm σ. destruct v; try done. unfold save_unit, getattr.
  destruct (getattr_in σ self s) as [smod|x] eqn:Hg;
    [|apply bind_fail; unfold read; by rewrite Hg].
  rewrite (bind_run _ _ σ smod σ) by (unfold read; by rewrite Hg).
  destruct (encode_unit env smod) as [e|x] eqn:He; [|by apply bind_fail].
  rewrite (bind_run _ _ σ e σ) by done.
  rewrite (bind_run _ _ σ tt (pre ++ [ODict outd; o; ODict (dict_set s e c)])).
  2:{ unfold dict_setitem, bind, read, dict_of, store, σ.
      rewrite lookup_local. simpl. by rewrite insert_local. }
  erewrite bind_run.
  2:{ unfold dict_getitem, bind, read, dict_of. rewrite lookup_local0. simpl.
      by rewrite Hm. }
  unfold dict_delitem, bind, read, dict_of, store. rewrite lookup_local. simpl.
  destruct o as [|m|]; try done.
  destruct (dict_mem s m); [|done]. by rewrite insert_local.
Qed.

(** The loop writes only the objects the call has allocated. *)
Lemma save_loop_shape self pre outd names :
  dict_get "_modules" outd = Some (VRef (length pre + 1)) →
  ∀ o c, ∃ o' c',
    snd (for_each names (save_unit env self (VRef (length pre)) (VRef (length pre + 2)))
           (pre ++ [ODict outd; o; ODict c]))
    = pre ++ [ODict outd; o'; ODict c'].
Proof.
  intros Hm. induction names as [|v names IH]; intros o c; simpl; [eauto|].
  unfold bind. rewrite save_unit_run by done.
  destruct v; simpl; eauto.
  destruct (getattr_in _ self s); simpl; eauto.
  destruct (encode_unit env a); simpl; eauto.
  destruct o as [|m|]; simpl; eauto.
  destruct (dict_mem s m); simpl; eauto.
Qed.

(** The loop, when it ends normally: the names are distinct strings, all
    of them keys of the copied children, each resolved and encoded. *)
Lemma save_loop_Ok self pre outd names :
  dict_get "_modules" outd = Some (VRef (length pre + 1)) →
  ∀ o c σ',
    for_each names (save_unit env self (VRef (length pre)) (VRef (length pre + 2)))
      (pre ++ [ODict outd; o; ODict c]) = (Ok tt, σ') →
    names = [] ∧ σ' = pre ++ [ODict outd; o; ODict c] ∨
    ∃ m ss es,
      o = ODict m ∧ names = map VStr ss ∧ NoDup ss ∧
      Forall (λ s, s ∈ dict_keys m) ss ∧
      Forall2 (λ s e, ∃ τ smod, getattr_in (pre ++ τ) self s = Ok smod ∧
                                encode_unit env smod = Ok e) ss es ∧
      σ' = pre ++ [ODict outd; ODict (remove_keys ss m);
                   ODict (dict_update c (combine ss es))].
Proof.
  intros Hm. induction names as [|v names IH]; intros o c σ' Hrun;
    [left; simpl in Hrun; unfold ret in Hrun; by simplify_eq|].
  right. simpl in Hrun. apply bind_Ok_inv in Hrun as ([] & σ1 & Hv & Hrest).
  rewrite save_unit_run in Hv by done.
  destruct v as [| |s| | | |]; try discriminate.
  destruct (getattr_in _ self s) as [smod|] eqn:Hg; [|discriminate].
  destruct (encode_unit env smod) as [e|] eqn:He; [|discriminate].
  destruct o as [|m|]; try discriminate.
  destruct (dict_mem s m) eqn:Hmem; [|discriminate]. injection Hv as <-.
  apply dict_mem_true in Hmem.
  apply IH in Hrest as [[-> ->]|(m' & ss & es & [= <-] & -> & Hnd & Hin & Hall & ->)].
  - exists m, [s], [e]. repeat split; try done.
    + apply NoDup_singleton.
    + by repeat constructor.
    + repeat constructor. eauto.
  - exists m, (s :: ss), (e :: es). repeat split; try done.
    + apply NoDup_cons. split; [|done]. intros Hs.
      rewrite Forall_forall in Hin. apply Hin, dict_keys_remove_elem in Hs. tauto.
    + constructor; [done|]. eapply Forall_impl; [done|].
      intros k Hk. apply dict_keys_remove_elem in Hk. tauto.
    + constructor; [|done]. eauto.
Qed.

Lemma base_getstate_run self σ d0 :
  σ !! self = Some (OInstance d0) →
  ∃ ext, base_getstate env self σ = (Ok d0, σ ++ ext).
Proof.
  intros Hs. unfold base_getstate. destruct (super_getstate env).
  - exists [ODict d0]. unfold bind, read, alloc, attrs_of, dict_of.
    rewrite Hs, lookup_local0. done.
  - exists []. unfold read, attrs_of. by rewrite Hs, app_nil_r.
Qed.

(** The call, up to the loop: the state, the children and the encoded
    units are three new objects, allocated one after the other. *)
Lemma getstate_run self σ d0 :
  σ !! self = Some (OInstance d0) →
  ∃ ext, let pre := σ ++ ext in
    __getstate__ env self σ =
      match dict_get "_modules" d0 with
      | None => (Err KeyError, pre ++ [ODict d0])
      | Some mv =>
          match copy_of (pre ++ [ODict d0]) mv with
          | Err e => (Err e, pre ++ [ODict d0])
          | Ok o =>
              let outd := dict_set "_modules" (VRef (length pre + 1)) d0 in
              let σ3 := pre ++ [ODict outd; o; ODict []] in
              match getattr_in σ3 self "__codegen__" with
              | Ok reg =>
                  match iter_of σ3 reg with
                  | Ok names =>
                      match for_each names
                              (save_unit env self (VRef (length pre))
                                 (VRef (length pre + 2))) σ3 with
                      | (Ok _, σ4) =>
                          (dict_setitem (VRef (length pre)) "__codegen__"
                             (VRef (length pre + 2)) ;;
                           ret (VRef (length pre))) σ4
                      | (Err e, σ4) => (Err e, σ4)
                      end
                  | Err e => (Err e, σ3)
                  end
              | Err AttributeError => (Ok (VRef (length pre)), σ3)
              | Err e => (Err e, σ3)
              end
          end
      end.
Proof.
  intros Hs. destruct (base_getstate_run self σ d0 Hs) as [ext Hbase].
  exists ext. intros pre. unfold __getstate__.
  rewrite (bind_run _ _ _ _ _ Hbase). fold pre.
  rewrite (bind_run _ _ pre (length pre) (pre ++ [ODict d0])) by done.
  destruct (dict_get "_modules" d0) as [mv|] eqn:Hm.
  2:{ apply bind_fail. unfold dict_getitem, bind, read, dict_of.
      rewrite lookup_local0. simpl. by rewrite Hm. }
  rewrite (bind_run _ _ (pre ++ [ODict d0]) mv (pre ++ [ODict d0])).
  2:{ unfold dict_getitem, bind, read, dict_of. rewrite lookup_local0. simpl.
      by rewrite Hm. }
  destruct (copy_of (pre ++ [ODict d0]) mv) as [o|e] eqn:Hcopy.
  2:{ apply bind_fail. unfold py_copy. apply bind_fail. unfold read. by rewrite Hcopy. }
  rewrite (bind_run _ _ (pre ++ [ODict d0]) (VRef (length pre + 1)) (pre ++ [ODict d0; o])).
  2:{ unfold py_copy, bind, read, alloc, ret. rewrite Hcopy, length_app, <- app_assoc. done. }
  set (outd := dict_set "_modules" (VRef (length pre + 1)) d0).
  rewrite (bind_run _ _ (pre ++ [ODict d0; o]) tt (pre ++ [ODict outd; o])).
  2:{ unfold dict_setitem, bind, read, dict_of, store. rewrite lookup_local0. simpl.
      by rewrite insert_local0. }
  rewrite (bind_run _ _ (pre ++ [ODict outd; o]) (length pre + 2)
             (pre ++ [ODict outd; o; ODict []])).
  2:{ unfold alloc. rewrite length_app, <- app_assoc. done. }
  set (σ3 := pre ++ [ODict outd; o; ODict []]).
  unfold hasattr, getattr.
  destruct (getattr_in σ3 self "__codegen__") as [reg|e] eqn:Hreg.
  - rewrite (bind_run _ _ σ3 true σ3) by (unfold read; by rewrite Hreg).
    rewrite (bind_run _ _ σ3 reg σ3) by (unfold read; by rewrite Hreg).
    destruct (iter_of σ3 reg) as [names|e] eqn:Hiter.
    + rewrite (bind_run _ _ σ3 names σ3) by (unfold read; by rewrite Hiter).
      unfold bind at 1.
      by destruct (for_each names _ σ3) as [[[]|e] σ4].
    + apply bind_fail. unfold read. by rewrite Hiter.
  - destruct (decide (e = AttributeError)) as [->|Hne].
    + by rewrite (bind_run _ _ σ3 false σ3) by (unfold read; by rewrite Hreg).
    + transitivity (@Err value e, σ3); [|by destruct e].
      apply bind_fail. unfold read. rewrite Hreg. by destruct e.
Qed.

End Snapshot.

Section SnapshotFrame.

Variable env : services.

Lemma getstate_not_instance self σ :
  (∀ d, σ !! self ≠ Some (OInstance d)) →
  __getstate__ env self σ = (Err TypeError, σ).
Proof.
  intros Hno. unfold __getstate__. apply bind_fail.
  assert (attrs_of σ self = Err TypeError) as Ha.
  { unfold attrs_of. destruct (σ !! self) as [[d| |]|] eqn:E; try done. by destruct (Hno d). }
  unfold base_getstate. destruct (super_getstate env).
  - apply bind_fail. unfold read. by rewrite Ha.
  - unfold read. by rewrite Ha.
Qed.

Lemma dict_setitem_local0 pre d τ k v :
  dict_setitem (VRef (length pre)) k v (pre ++ ODict d :: τ)
  = (Ok tt, pre ++ ODict (dict_set k v d) :: τ).
Proof.
  unfold dict_setitem, bind, read, dict_of, store. rewrite lookup_local0. simpl.
  by rewrite insert_local0.
Qed.

(** The heap after the call is the heap before followed by new objects; the
    state returned and its dictionary of children are among the new ones. *)
Lemma getstate_extends self σ :
  ∃ τ, snd (__getstate__ env self σ) = σ ++ τ ∧
       ∀ blob, fst (__getstate__ env self σ) = Ok blob →
         ∃ (lo lm : loc) (outd : dict), blob = VRef lo ∧ (length σ ≤ lo)%nat ∧ (length σ ≤ lm)%nat ∧
                       (σ ++ τ) !! lo = Some (ODict outd) ∧
                       dict_get "_modules" outd = Some (VRef lm).
Proof.
  destruct (σ !! self) as [[d0| |]|] eqn:Hs.
  2-4: (exists []; rewrite getstate_not_instance by (intros ?; congruence);
        split; [by rewrite app_nil_r | discriminate]).
  destruct (getstate_run env self σ d0 Hs) as [ext Hrun]. simpl in Hrun.
  rewrite Hrun. clear Hrun. set (pre := σ ++ ext).
  assert (length σ ≤ length pre)%nat as Hlen by (unfold pre; rewrite length_app; lia).
  destruct (dict_get "_modules" d0) as [mv|].
  2:{ exists (ext ++ [ODict d0]). split; [by rewrite app_assoc | discriminate]. }
  destruct (copy_of _ mv) as [o|].
  2:{ exists (ext ++ [ODict d0]). split; [by rewrite app_assoc | discriminate]. }
  set (outd := dict_set "_modules" (VRef (length pre + 1)) d0).
  assert (dict_get "_modules" outd = Some (VRef (length pre + 1))) as Hm
    by apply dict_get_set_eq.
  set (σ3 := pre ++ [ODict outd; o; ODict []]).
  assert (∀ x y z, pre ++ [x; y; z] = σ ++ (ext ++ [x; y; z])) as Hassoc
    by (intros; unfold pre; by rewrite app_assoc).
  destruct (getattr_in σ3 self "__codegen__") as [reg|e].
  - destruct (iter_of σ3 reg) as [names|].
    2:{ eexists. split; [apply Hassoc | discriminate]. }
    destruct (save_loop_shape env self pre outd names Hm o []) as (o' & c' & Hshape).
    fold σ3 in Hshape.
    destruct (for_each names _ σ3) as [[[]|e] σ4]; simpl in Hshape; subst σ4.
    + rewrite (bind_run _ _ _ _ _ (dict_setitem_local0 _ _ _ _ _)). unfold ret. simpl.
      eexists. split; [apply Hassoc|]. intros blob [= <-].
      exists (length pre), (length pre + 1), (dict_set "__codegen__" (VRef (length pre + 2)) outd).
      rewrite <- Hassoc, lookup_local0. repeat split; try done; try lia.
      by rewrite dict_get_set_ne.
    + eexists. split; [apply Hassoc | discriminate].
  - assert (∃ r, (match e with AttributeError => (Ok (VRef (length pre)), σ3)
                  | _ => (Err e, σ3) end) = (r, σ3) ∧
                 (∀ blob, r = Ok blob → blob = VRef (length pre))) as (r & -> & Hr).
    { destruct e; eexists; (split; [done|]); intros; by simplify_eq. }
    eexists. split; [apply Hassoc|]. simpl. intros blob ->%Hr.
    exists (length pre), (length pre + 1), outd.
    rewrite <- Hassoc, lookup_local0. repeat split; try done; lia.
Qed.

End SnapshotFrame.

(** C6.  Snapshot leaves the live host as it is: whatever the call
    returns or raises, the heap afterwards is the heap before, unchanged,
    followed by the objects the call created.  So every attribute of the
    host still resolves to the same value, and its registry and its
    children are the same; the state returned and the dictionary of
    children inside it are two of the new objects, not those of the
    host. *)
Theorem snapshot_leaves_host env σ self :
  let r := __getstate__ env self σ in
  (∃ τ, snd r = σ ++ τ) ∧
  (∀ k v, getattr_in σ self k = Ok v → getattr_in (snd r) self k = Ok v) ∧
  (∀ reg, registry_in σ self = Ok reg → registry_in (snd r) self = Ok reg) ∧
  (∀ m, children_in σ self = Ok m → children_in (snd r) self = Ok m) ∧
  (∀ blob, fst r = Ok blob →
     ∃ (lo lm : loc) (outd : dict), blob = VRef lo ∧ (length σ ≤ lo)%nat ∧ (length σ ≤ lm)%nat ∧
                   snd r !! lo = Some (ODict outd) ∧
                   dict_get "_modules" outd = Some (VRef lm)).
Proof.
  intros r. subst r. destruct (getstate_extends env self σ) as (τ & Hheap & Hblob).
  rewrite Hheap. split; [eauto|]. split; [|split; [|split]].
  - intros k v. apply getattr_in_mono.
  - intros reg. apply registry_in_mono.
  - intros m. apply children_in_mono.
  - done.
Qed.

(** ** Snapshot of a host with a registry *)

Lemma dict_set_fresh k v d : k ∉ dict_keys d → dict_set k v d = d ++ [(k, v)].
Proof.
  induction d as [|[k0 v0] d IH]; simpl; [done|].
  rewrite not_elem_of_cons. intros [Hne Hd].
  rewrite eqb_ne_false by done. by rewrite IH.
Qed.

Lemma dict_update_fresh d ks (vs : list value) :
  NoDup (dict_keys d ++ ks) → dict_update d (combine ks vs) = d ++ combine ks vs.
Proof.
  unfold dict_update. revert d vs. induction ks as [|k ks IH]; intros d vs Hnd.
  - simpl. by rewrite app_nil_r.
  - destruct vs as [|v vs]; simpl; [by rewrite app_nil_r|].
    rewrite dict_set_fresh.
    + rewrite IH; [by rewrite <- app_assoc|].
      unfold dict_keys. rewrite map_app, <- app_assoc. done.
    + apply NoDup_app in Hnd as (_ & Hdis & _). intros Hk. apply (Hdis k Hk). left.
Qed.

Lemma combine_lookup {P : string → value → Prop} ss es :
  Forall2 P ss es → NoDup ss →
  ∀ s, s ∈ ss → ∃ e, dict_get s (combine ss es) = Some e ∧ P s e.
Proof.
  induction 1 as [|s0 e0 ss es HP _ IH]; intros Hnd s Hs; [by apply elem_of_nil in Hs|].
  apply NoDup_cons in Hnd as [Hn Hnd]. simpl.
  apply elem_of_cons in Hs as [->|Hs].
  - rewrite eqb_refl_true. eauto.
  - rewrite eqb_ne_false by (intros ->; done). auto.
Qed.

Lemma combine_elem {P : string → value → Prop} ss es k e :
  Forall2 P ss es → (k, e) ∈ combine ss es → k ∈ ss ∧ P k e.
Proof.
  induction 1 as [|s0 e0 ss es HP _ IH]; simpl; [intros H; by apply elem_of_nil in H|].
  rewrite !elem_of_cons. intros [[= -> ->]|H]; [auto | destruct (IH H); auto].
Qed.

Lemma combine_keys {P : string → value → Prop} ss es :
  Forall2 P ss es → dict_keys (combine ss es) = ss.
Proof. induction 1; simpl; [done | by f_equal]. Qed.

Section SnapshotRegistry.

Variable env : services.

(** On a host with children and a registry, the call comes down to the
    loop over the registry, run on the three new objects. *)
Lemma getstate_run_host self σ reg m :
  registry_in σ self = Ok reg → children_in σ self = Ok m →
  ∃ ext d0 lm,
    let pre := σ ++ ext in
    let outd := dict_set "_modules" (VRef (length pre + 1)) d0 in
    σ !! self = Some (OInstance d0) ∧
    dict_get "_modules" d0 = Some (VRef lm) ∧
    __getstate__ env self σ =
      match for_each reg (save_unit env self (VRef (length pre)) (VRef (length pre + 2)))
              (pre ++ [ODict outd; ODict m; ODict []]) with
      | (Ok _, σ4) =>
          (dict_setitem (VRef (length pre)) "__codegen__" (VRef (length pre + 2)) ;;
           ret (VRef (length pre))) σ4
      | (Err e, σ4) => (Err e, σ4)
      end.
Proof.
  intros Hreg Hch.
  pose proof Hreg as (d0 & l & Hs & Hg & Hl)%registry_in_Ok.
  pose proof Hch as (d0' & lm & Hs' & Hm & Hlm)%children_in_Ok. simplify_eq.
  destruct (getstate_run env self σ d0 Hs) as [ext Hrun]. simpl in Hrun.
  exists ext, d0, lm. simpl. split; [done|]. split; [done|].
  rewrite Hrun, Hm. clear Hrun.
  assert (copy_of ((σ ++ ext) ++ [ODict d0]) (VRef lm) = Ok (ODict m)) as ->.
  { unfold copy_of. by rewrite <- app_assoc, (lookup_app_l_Some _ _ _ _ Hlm). }
  set (σ3 := (σ ++ ext) ++ _).
  assert (∃ τ, σ3 = σ ++ τ) as [τ Hτ] by (eexists; unfold σ3; by rewrite <- app_assoc).
  assert (getattr_in σ3 self "__codegen__" = Ok (VRef l)) as ->.
  { rewrite Hτ. apply getattr_in_mono. by eapply getattr_in_attr. }
  assert (iter_of σ3 (VRef l) = Ok reg) as ->.
  { unfold iter_of. by rewrite Hτ, (lookup_app_l_Some _ _ _ _ Hl). }
  done.
Qed.

(** The state a successful snapshot returns. *)
Lemma getstate_Ok_inv self σ reg m blob σ' :
  registry_in σ self = Ok reg → children_in σ self = Ok m →
  __getstate__ env self σ = (Ok blob, σ') →
  ∃ ext d0 ss es,
    let pre := σ ++ ext in
    σ !! self = Some (OInstance d0) ∧
    reg = map VStr ss ∧ NoDup ss ∧ Forall (λ s, s ∈ dict_keys m) ss ∧
    Forall2 (λ s e, s ≠ "_modules" ∧ ∃ smod, encode_unit env smod = Ok e) ss es ∧
    blob = VRef (length pre) ∧
    σ' = pre ++ [ODict (dict_set "__codegen__" (VRef (length pre + 2))
                          (dict_set "_modules" (VRef (length pre + 1)) d0));
                 ODict (remove_keys ss m);
                 ODict (combine ss es)].
Proof.
  intros Hreg Hch Hrun.
  destruct (getstate_run_host self σ reg m Hreg Hch) as (ext & d0 & lm & Hs & Hm & Heq).
  simpl in Heq. rewrite Heq in Hrun. clear Heq.
  set (pre := σ ++ ext) in *.
  set (outd := dict_set "_modules" (VRef (length pre + 1)) d0) in *.
  assert (dict_get "_modules" outd = Some (VRef (length pre + 1))) as Hm'
    by apply dict_get_set_eq.
  destruct (for_each reg _ _) as [[[]|e] σ4] eqn:Hloop; [|discriminate].
  apply (save_loop_Ok env self pre outd reg Hm') in Hloop
    as [[-> ->]|(m' & ss & es & [= <-] & -> & Hnd & Hin & Hall & ->)];
    rewrite (bind_run _ _ _ _ _ (dict_setitem_local0 _ _ _ _ _)) in Hrun;
    unfold ret in Hrun; injection Hrun as <- <-.
  - exists ext, d0, [], []. simpl. repeat split; try done; constructor.
  - exists ext, d0, ss, es. simpl. repeat split; try done.
    + eapply Forall2_impl; [done|]. intros s e (τ & smod & Hg & He). split; [|eauto].
      intros ->. apply encode_unit_Ok in He as [Hmod _].
      assert (pre !! self = Some (OInstance d0)) as Hs'
        by (by apply lookup_app_l_Some).
      erewrite getattr_in_attr in Hg; [|by apply lookup_app_l_Some|done].
      by simplify_eq.
    + by rewrite (dict_update_fresh []).
Qed.

(** A snapshot that returns has met no registry name twice. *)
Lemma getstate_Ok_NoDup self σ reg blob σ' :
  registry_in σ self = Ok reg →
  __getstate__ env self σ = (Ok blob, σ') → NoDup reg.
Proof.
  intros Hreg Hrun.
  pose proof Hreg as (d0 & l & Hs & Hg & Hl)%registry_in_Ok.
  destruct (getstate_run env self σ d0 Hs) as [ext Heq]. simpl in Heq.
  rewrite Heq in Hrun. clear Heq.
  destruct (dict_get "_modules" d0) as [mv|]; [|discriminate].
  destruct (copy_of _ mv) as [o|] eqn:Hcopy; [|discriminate].
  set (pre := σ ++ ext) in *.
  set (outd := dict_set "_modules" (VRef (length pre + 1)) d0) in *.
  set (σ3 := pre ++ [ODict outd; o; ODict []]) in *.
  assert (∃ τ, σ3 = σ ++ τ) as [τ Hτ]
    by (eexists; unfold σ3, pre; by rewrite <- app_assoc).
  assert (getattr_in σ3 self "__codegen__" = Ok (VRef l)) as Hga.
  { rewrite Hτ. apply getattr_in_mono. by eapply getattr_in_attr. }
  assert (iter_of σ3 (VRef l) = Ok reg) as Hit.
  { unfold iter_of. by rewrite Hτ, (lookup_app_l_Some _ _ _ _ Hl). }
  rewrite Hga, Hit in Hrun.
  destruct (for_each reg _ σ3) as [[[]|e'] σ4] eqn:Hloop; [|discriminate].
  apply (save_loop_Ok env self pre outd reg) in Hloop
    as [[-> _]|(m' & ss & es & _ & -> & Hnd & _)]; [| |apply dict_get_set_eq].
  - apply NoDup_nil_2.
  - apply (NoDup_fmap_2 VStr) in Hnd. exact Hnd.
Qed.

(** With every registry name resolved and encodable, the only way the
    loop can fail is the [del] of a name that is no longer a key. *)
Lemma save_loop_KeyError self σ ext outd names :
  dict_get "_modules" outd = Some (VRef (length (σ ++ ext) + 1)) →
  (∀ v, v ∈ names → ∃ s smod e, v = VStr s ∧ getattr_in σ self s = Ok smod ∧
                                 encode_unit env smod = Ok e) →
  ∀ m c,
    let r := fst (for_each names
                    (save_unit env self (VRef (length (σ ++ ext)))
                       (VRef (length (σ ++ ext) + 2)))
                    ((σ ++ ext) ++ [ODict outd; ODict m; ODict c])) in
    r = Ok tt ∨ r = Err KeyError.
Proof.
  intros Hm. induction names as [|v names IH]; intros Hgood m c; simpl; [by left|].
  destruct (Hgood v) as (s & smod & e & -> & Hg & He); [left|].
  unfold bind. rewrite save_unit_run by done.
  rewrite <- app_assoc, (getattr_in_mono _ _ _ _ _ Hg), He.
  destruct (dict_mem s m); [|by right].
  apply IH. intros v Hv. apply Hgood. by right.
Qed.

End SnapshotRegistry.

(** C9.  On a host whose registry holds a name twice, snapshot raises
    and returns no state.  When every registry name resolves to a module
    that can be encoded, the exception is the [KeyError] of the [del] that
    meets the name again. *)
Theorem snapshot_duplicate_name_raises env σ self reg name l1 l2 l3 :
  registry_in σ self = Ok reg →
  reg = l1 ++ VStr name :: l2 ++ VStr name :: l3 →
  (∃ e, fst (__getstate__ env self σ) = Err e) ∧
  ((∃ m, children_in σ self = Ok m) →
   (∀ v, v ∈ reg → ∃ s smod e, v = VStr s ∧ getattr_in σ self s = Ok smod ∧
                              encode_unit env smod = Ok e) →
   fst (__getstate__ env self σ) = Err KeyError).
Proof.
  intros Hreg Hdup.
  assert (∀ blob, fst (__getstate__ env self σ) ≠ Ok blob) as Hnot.
  { intros blob Hok.
    destruct (__getstate__ env self σ) as [r σ'] eqn:Hrun. simpl in Hok. subst r.
    pose proof (getstate_Ok_NoDup env self σ reg blob σ' Hreg Hrun) as Hnd.
    rewrite Hdup in Hnd. apply NoDup_app in Hnd as (_ & _ & Hnd).
    apply NoDup_cons in Hnd as [Hn _]. apply Hn, elem_of_app. right. left. }
  split.
  - destruct (fst (__getstate__ env self σ)) as [blob|e]; [by destruct (Hnot blob) | eauto].
  - intros [m Hch] Hgood.
    destruct (getstate_run_host env self σ reg m Hreg Hch) as (ext & d0 & lm & Hs & Hm & Heq).
    simpl in Heq.
    pose proof (save_loop_KeyError env self σ ext _ reg
                  (dict_get_set_eq "_modules" _ d0) Hgood m []) as Hloop.
    simpl in Hloop.
    destruct (for_each reg _ _) as [[[]|e] σ4] eqn:Hl.
    + exfalso.
      apply (save_loop_Ok env self (σ ++ ext) _ reg (dict_get_set_eq "_modules" _ d0)) in Hl
        as [[-> _]|(m' & ss & es & _ & -> & Hnd & _)].
      * by destruct l1.
      * assert (NoDup (map VStr ss)) as Hnd'
          by (apply (NoDup_fmap_2 VStr) in Hnd; exact Hnd).
        rewrite Hdup in Hnd'. apply NoDup_app in Hnd' as (_ & _ & Hnd').
        apply NoDup_cons in Hnd' as [Hn _]. apply Hn, elem_of_app. right. left.
    + rewrite Heq. simpl in *. destruct Hloop as [?|[= ->]]; [discriminate | done].
Qed.

(** C2 (as amended).  The state returned by snapshot has, for every
    registered name, a pair of a tag, ["fx"] or ["torchscript"], and plain
    bytes; its encoded-units section holds such pairs only, under the
    registered names only, so no module at all; and its dictionary of
    children is that of the host without the registered names.  Children
    that were never registered are copied as they are, compiled or not. *)
Theorem snapshot_encodes_registered_units env σ self reg m blob σ' :
  registry_in σ self = Ok reg →
  children_in σ self = Ok m →
  __getstate__ env self σ = (Ok blob, σ') →
  ∃ outd vs section vm mods,
    dict_of σ' blob = Ok outd ∧
    dict_get "__codegen__" outd = Some vs ∧ dict_of σ' vs = Ok section ∧
    dict_get "_modules" outd = Some vm ∧ dict_of σ' vm = Ok mods ∧
    (∀ x, x ∈ reg → ∃ s tag b, x = VStr s ∧
            dict_get s section = Some (VPair (VStr tag) (VBytes b)) ∧
            (tag = "fx" ∨ tag = "torchscript")) ∧
    (∀ k e, (k, e) ∈ section →
            VStr k ∈ reg ∧ ∃ tag b, e = VPair (VStr tag) (VBytes b)) ∧
    no_script_module_in section ∧
    (∀ k, VStr k ∈ reg → dict_get k mods = None) ∧
    (∀ k, VStr k ∉ reg → dict_get k mods = dict_get k m).
Proof.
  intros Hreg Hch Hrun.
  destruct (getstate_Ok_inv env self σ reg m blob σ' Hreg Hch Hrun)
    as (ext & d0 & ss & es & Hs & -> & Hnd & Hin & Hall & -> & ->).
  set (pre := σ ++ ext).
  assert (∀ s, VStr s ∈ map VStr ss ↔ s ∈ ss) as Hmem.
  { intros s. rewrite !list_elem_of_In, in_map_iff. split; [|by exists s].
    by intros (s' & [= ->] & ?). }
  assert (∀ k e, (k, e) ∈ combine ss es →
                 VStr k ∈ map VStr ss ∧ ∃ tag b, e = VPair (VStr tag) (VBytes b)) as Hsec.
  { intros k e Hke. destruct (combine_elem _ _ _ _ Hall Hke) as (Hk & _ & smod & Henc).
    split; [by apply Hmem|].
    apply encode_unit_Ok in Henc as (_ & tag & b & -> & _). eauto. }
  eexists _, (VRef (length pre + 2)), (combine ss es), (VRef (length pre + 1)),
    (remove_keys ss m).
  split; [|split; [|split; [|split; [|split; [|split; [|split; [|split; [|split]]]]]]]].
  - unfold dict_of. by rewrite lookup_local0.
  - apply dict_get_set_eq.
  - unfold dict_of. by rewrite lookup_local.
  - rewrite dict_get_set_ne by done. apply dict_get_set_eq.
  - unfold dict_of. by rewrite lookup_local.
  - intros x Hx. apply list_elem_of_In, in_map_iff in Hx as (s & <- & Hs').
    apply list_elem_of_In in Hs'.
    destruct (combine_lookup _ _ Hall Hnd s Hs') as (e & Hget & _ & smod & Henc).
    apply encode_unit_Ok in Henc as (_ & tag & b & -> & Htag).
    exists s, tag, b. split; [done|]. split; [done|]. destruct Htag as [[-> _]|[-> _]]; auto.
  - done.
  - intros k e Hke. by destruct (Hsec k e Hke) as (_ & tag & b & ->).
  - intros k Hk%Hmem. rewrite dict_get_remove_keys. by rewrite bool_decide_eq_true_2.
  - intros k Hk. rewrite dict_get_remove_keys. rewrite bool_decide_eq_false_2; [done|].
    intros Hk'. by apply Hk, Hmem.
Qed.

(** ** Restore *)

Lemma dict_remove_absent k d : dict_get k d = None → dict_remove k d = d.
Proof.
  induction d as [|[k0 v0] d IH]; simpl; [done|].
  destruct (String.eqb k0 k) eqn:E; [done|]. simpl. intros H. by rewrite IH.
Qed.

Section Restore.

Variable env : services.

(** The call, up to the loop: the state is copied, the section is popped
    from the copy, and the rest updates the instance dictionary. *)
Lemma setstate_run self ld σ dd a :
  σ !! ld = Some (ODict dd) → σ !! self = Some (OInstance a) →
  let dd' := dict_remove "__codegen__" dd in
  __setstate__ env self (VRef ld) σ =
    restore_units env self
      (match dict_get "__codegen__" dd with Some v => v | None => VNone end)
      (<[self:=OInstance (dict_update a dd')]> σ ++ [ODict dd']).
Proof.
  intros Hld Hs dd'. unfold __setstate__.
  rewrite (bind_run _ _ σ (VRef (length σ)) (σ ++ [ODict dd])).
  2:{ unfold py_copy, bind, read, copy_of, alloc, ret. by rewrite Hld. }
  assert (self < length σ) as Hlt by (by eapply lookup_lt_Some).
  set (cs := match dict_get "__codegen__" dd with Some v => v | None => VNone end).
  rewrite (bind_run _ _ (σ ++ [ODict dd]) cs (σ ++ [ODict dd'])).
  2:{ unfold dict_pop, bind, read, dict_of, store, ret, cs, dd'.
      rewrite lookup_local0. simpl.
      destruct (dict_get "__codegen__" dd) eqn:Hg.
      - by rewrite insert_local0.
      - by rewrite dict_remove_absent. }
  rewrite (bind_run _ _ (σ ++ [ODict dd']) tt
             (<[self:=OInstance (dict_update a dd')]> σ ++ [ODict dd'])); [done|].
  assert (attrs_update self (VRef (length σ)) (σ ++ [ODict dd']) =
          (Ok tt, <[self:=OInstance (dict_update a dd')]> σ ++ [ODict dd'])) as Hup.
  { unfold attrs_update, bind, read, dict_of, attrs_of, store.
    rewrite lookup_local0. simpl.
    rewrite (lookup_app_l_Some _ _ _ _ Hs). by rewrite insert_app_l. }
  unfold base_setstate. by destruct (super_setstate env).
Qed.

Lemma setstate_not_instance self ld σ dd :
  σ !! ld = Some (ODict dd) → (∀ a, σ !! self ≠ Some (OInstance a)) →
  ∃ σ', __setstate__ env self (VRef ld) σ = (Err TypeError, σ').
Proof.
  intros Hld Hno. unfold __setstate__. eexists.
  rewrite (bind_run _ _ σ (VRef (length σ)) (σ ++ [ODict dd])).
  2:{ unfold py_copy, bind, read, copy_of, alloc, ret. by rewrite Hld. }
  set (cs := match dict_get "__codegen__" dd with Some v => v | None => VNone end).
  set (dd' := dict_remove "__codegen__" dd).
  rewrite (bind_run _ _ (σ ++ [ODict dd]) cs (σ ++ [ODict dd'])).
  2:{ unfold dict_pop, bind, read, dict_of, store, ret, cs, dd'.
      rewrite lookup_local0. simpl.
      destruct (dict_get "__codegen__" dd) eqn:Hg.
      - by rewrite insert_local0.
      - by rewrite dict_remove_absent. }
  apply bind_fail.
  assert (attrs_update self (VRef (length σ)) (σ ++ [ODict dd']) =
          (Err TypeError, σ ++ [ODict dd'])) as Hup.
  { unfold attrs_update, bind, read, dict_of, attrs_of.
    rewrite lookup_local0. simpl.
    destruct ((σ ++ [ODict dd']) !! self) as [[a| |]|] eqn:E; try done.
    apply lookup_app_Some in E as [E|[Hge E]]; [by destruct (Hno a)|].
    destruct (self - length σ) as [|n]; simpl in E; [done|].
    by rewrite lookup_nil in E. }
  unfold base_setstate. by destruct (super_setstate env).
Qed.

End Restore.

(** C4 (as amended).  A state without an encoded-units section restores
    normally: the instance dictionary is updated with the state, and the
    registry is left as it was.  A host that had no registry, as one
    freshly created for unpickling, has none afterwards. *)
Theorem restore_without_section env σ self ld dd a :
  σ !! ld = Some (ODict dd) →
  dict_get "__codegen__" dd = None →
  σ !! self = Some (OInstance a) →
  ∃ σ', __setstate__ env self (VRef ld) σ = (Ok tt, σ') ∧
        attrs_of σ' self = Ok (dict_update a dd) ∧
        registry_in σ' self = registry_in σ self ∧
        (registry_empty σ self → registry_empty σ' self).
Proof.
  intros Hld Hno Hs.
  assert (self < length σ) as Hlt by (by eapply lookup_lt_Some).
  eexists. rewrite (setstate_run env self ld σ dd a Hld Hs), Hno.
  rewrite dict_remove_absent by done. simpl. split; [done|].
  set (σ' := <[self:=OInstance (dict_update a dd)]> σ ++ [ODict dd]).
  assert (σ' !! self = Some (OInstance (dict_update a dd))) as Hs'.
  { unfold σ'. apply lookup_app_l_Some. by apply list_lookup_insert_eq. }
  assert (registry_in σ' self = registry_in σ self) as Hreg.
  { unfold registry_in, attrs_of. rewrite Hs', Hs, dict_get_update_None by done.
    destruct (dict_get "__codegen__" a) as [[| | | | | |l]|]; try done.
    destruct (decide (l = self)) as [->|Hne]; [by rewrite Hs', Hs|].
    unfold σ'. destruct (decide (l < length σ)) as [Hl|Hl].
    - rewrite lookup_app_l by (by rewrite length_insert).
      by rewrite lookup_store_ne.
    - rewrite (lookup_ge_None_2 σ l) by lia.
      rewrite lookup_app_r by (rewrite length_insert; lia).
      rewrite length_insert. by destruct (l - length σ) as [|[|n]]. }
  split; [|split; [done|]].
  - unfold attrs_of. by rewrite Hs'.
  - unfold registry_empty. by rewrite Hreg.
Qed.

Section RestoreUnits.

Variable env : services.

Lemma decode_unit_Ok t b v :
  decode_unit env t b = Ok v →
  is_module v = true ∧
  ((t = "fx" ∧ pickle_loads env b = Ok v ∧ isinstance_fx v = true) ∨
   (t = "torchscript" ∧ jit_load env b = Ok v ∧ isinstance_ScriptModule v = true)).
Proof.
  unfold decode_unit. destruct (String.eqb t "fx") eqn:Et.
  - apply String.eqb_eq in Et as ->.
    destruct (pickle_loads env b) as [w|]; [|discriminate].
    destruct (isinstance_fx w) eqn:Hw; [|discriminate]. intros [= ->].
    split; [by destruct v | by left].
  - destruct (String.eqb t "torchscript") eqn:Es; [|discriminate].
    apply String.eqb_eq in Es as ->.
    destruct (jit_load env b) as [w|]; [|discriminate].
    destruct (isinstance_ScriptModule w) eqn:Hw; [|discriminate]. intros [= ->].
    split; [by destruct v | by right].
Qed.

(** A turn of the restore loop that ends normally has decoded a module
    and assigned it. *)
Lemma load_unit_Ok_inv self k entry σ σ' :
  load_unit env self k entry σ = (Ok tt, σ') →
  ∃ t b v, iter_of σ entry = Ok [VStr t; VBytes b] ∧
           decode_unit env t b = Ok v ∧ is_module v = true ∧
           setattr self k v σ = (Ok tt, σ').
Proof.
  unfold load_unit, unpack2. intros Hrun.
  apply bind_Ok_inv in Hrun as ([x y] & σ1 & Hun & Hrun).
  apply bind_Ok_inv in Hun as (xs & σ2 & Hit & Hxs).
  unfold read in Hit. destruct (iter_of σ entry) as [xs'|] eqn:Hiter; [|discriminate].
  injection Hit as -> ->.
  destruct xs as [|x' [|y' [|]]]; try discriminate.
  unfold ret in Hxs. injection Hxs as -> -> ->. simpl in Hrun.
  destruct x as [| |t| | | |]; try discriminate.
  destruct y as [| | |b| | |]; try discriminate.
  apply bind_Ok_inv in Hrun as (v & σ3 & Hdec & Hset).
  unfold lift in Hdec. injection Hdec as Hdec ->.
  exists t, b, v. split; [done|]. split; [done|].
  split; [by apply decode_unit_Ok in Hdec as [? _] | done].
Qed.

(** An entry whose tag is not one of the two: the turn raises, and with
    a string tag and a bytes buffer what it raises is
    [NotImplementedError]. *)
Lemma load_unit_unknown_tag self k tag buf σ :
  tag ≠ VStr "fx" → tag ≠ VStr "torchscript" →
  ∃ e, load_unit env self k (VPair tag buf) σ = (Err e, σ) ∧
       (∀ t b, tag = VStr t → buf = VBytes b → e = NotImplementedError).
Proof.
  intros Hfx Hts. unfold load_unit.
  rewrite (bind_run _ _ σ (tag, buf) σ) by done. simpl.
  destruct tag as [| |t| | | |]; try (by exists AssertionError).
  destruct buf as [| | |b| | |]; try (by exists AssertionError).
  exists NotImplementedError. split; [|done].
  apply bind_fail. unfold lift, decode_unit.
  rewrite !eqb_ne_false; [done | congruence | congruence].
Qed.

End RestoreUnits.


(** ** The registry invariant *)

Lemma setattr_plain_Ok_inv σ σ' self k v :
  is_module v = false → setattr self k v σ = (Ok tt, σ') →
  ∃ d, σ !! self = Some (OInstance d) ∧ σ' = <[self:=OInstance (dict_set k v d)]> σ.
Proof.
  intros Hv. unfold setattr, bind, read, attrs_of, store.
  destruct (σ !! self) as [[d| |]|] eqn:Hs; try discriminate.
  rewrite Hv. intros [= <-]. eauto.
Qed.

Section RestoreLoop.

Variable env : services.

(** A turn of the restore loop that ends normally: the name leaves the
    instance dictionary and the decoded module becomes the child of that
    name. *)
Lemma load_unit_step self k entry σ σ' :
  load_unit env self k entry σ = (Ok tt, σ') →
  ∃ v d lm cm,
    is_module v = true ∧
    σ !! self = Some (OInstance d) ∧ dict_get "_modules" d = Some (VRef lm) ∧
    σ !! lm = Some (ODict cm) ∧ lm ≠ self ∧
    σ' = <[lm:=ODict (dict_set k v cm)]> (<[self:=OInstance (dict_remove k d)]> σ).
Proof.
  intros (t & b & v & _ & _ & Hv & Hset)%load_unit_Ok_inv.
  apply setattr_module_Ok_inv in Hset as (d & lm & cm & Hs & Hm & Hlm & ->); [|done].
  exists v, d, lm, cm. repeat split; try done. intros ->. congruence.
Qed.

(** The section keeps its keys while the loop runs over them, also when
    it is the very dictionary the modules are stored in. *)
Lemma restore_loop_section self lc items :
  ∀ σ σ' cc,
    for_each items (λ kv, load_unit env self (fst kv) (snd kv)) σ = (Ok tt, σ') →
    σ !! lc = Some (ODict cc) →
    (∀ kv, kv ∈ items → fst kv ∈ dict_keys cc) →
    ∃ cc', σ' !! lc = Some (ODict cc') ∧ dict_keys cc' = dict_keys cc.
Proof.
  induction items as [|[k e] items IH]; intros σ σ' cc Hrun Hlc Hkeys.
  - simpl in Hrun. unfold ret in Hrun. simplify_eq. eauto.
  - simpl in Hrun. apply bind_Ok_inv in Hrun as ([] & σ1 & Hturn & Hrest).
    apply load_unit_step in Hturn as (v & d & lm & cm & _ & Hs & _ & Hlm & Hne & ->).
    assert (lc ≠ self) as Hlcs by (intros ->; congruence).
    assert (k ∈ dict_keys cc) as Hk by (apply (Hkeys (k, e)); left).
    assert (∃ cc1, (<[lm:=ODict (dict_set k v cm)]>
                      (<[self:=OInstance (dict_remove k d)]> σ)) !! lc
                   = Some (ODict cc1) ∧ dict_keys cc1 = dict_keys cc) as (cc1 & Hlc1 & Hk1).
    { destruct (decide (lc = lm)) as [->|Hlm'].
      - assert (cm = cc) as -> by congruence. exists (dict_set k v cc). split.
        + apply list_lookup_insert_eq. rewrite length_insert. by eapply lookup_lt_Some.
        + rewrite dict_keys_set. apply dict_mem_true in Hk. by rewrite Hk.
      - exists cc. by rewrite !lookup_store_ne. }
    destruct (IH _ _ cc1 Hrest Hlc1) as (cc' & Hlc' & Hk').
    + intros kv Hkv. rewrite Hk1. apply Hkeys. by right.
    + exists cc'. split; [done | congruence].
Qed.

Lemma has_child_step σ self k k' v d lm cm :
  σ !! self = Some (OInstance d) → dict_get "_modules" d = Some (VRef lm) →
  σ !! lm = Some (ODict cm) → lm ≠ self → k' ≠ "_modules" →
  let σ' := <[lm:=ODict (dict_set k' v cm)]> (<[self:=OInstance (dict_remove k' d)]> σ) in
  children_in σ' self = Ok (dict_set k' v cm) ∧
  (has_child σ self k → has_child σ' self k).
Proof.
  intros Hs Hm Hlm Hne Hk' σ'.
  assert (children_in σ' self = Ok (dict_set k' v cm)) as Hch.
  { apply children_in_Ok. exists (dict_remove k' d), lm. split; [|split].
    - unfold σ'. rewrite lookup_store_ne by done.
      apply list_lookup_insert_eq. by eapply lookup_lt_Some.
    - rewrite dict_get_remove_ne by done. done.
    - apply list_lookup_insert_eq. rewrite length_insert. by eapply lookup_lt_Some. }
  split; [done|].
  intros (m & Hm0 & Hk). apply children_in_Ok in Hm0 as (d0 & lm0 & ? & ? & ?).
  assert (m = cm) as -> by congruence.
  exists (dict_set k' v cm). split; [done|].
  apply dict_keys_set_elem. by right.
Qed.

(** A child stays a child through the rest of the loop. *)
Lemma restore_loop_keeps_child self k items :
  "_modules" ∉ dict_keys items →
  ∀ σ σ',
    for_each items (λ kv, load_unit env self (fst kv) (snd kv)) σ = (Ok tt, σ') →
    has_child σ self k → has_child σ' self k.
Proof.
  induction items as [|[k' e] items IH]; intros Hno σ σ' Hrun Hc.
  - simpl in Hrun. unfold ret in Hrun. by simplify_eq.
  - simpl in Hno. apply not_elem_of_cons in Hno as [Hk' Hno].
    simpl in Hrun. apply bind_Ok_inv in Hrun as ([] & σ1 & Hturn & Hrest).
    apply load_unit_step in Hturn as (v & d & lm & cm & _ & Hs & Hm & Hlm & Hne & ->).
    eapply IH; [done..|].
    by apply (has_child_step σ self k k' v d lm cm).
Qed.

(** After the loop every name of the section is a child. *)
Lemma restore_loop_children self items :
  "_modules" ∉ dict_keys items →
  ∀ σ σ',
    for_each items (λ kv, load_unit env self (fst kv) (snd kv)) σ = (Ok tt, σ') →
    ∀ k, k ∈ dict_keys items → has_child σ' self k.
Proof.
  induction items as [|[k' e] items IH]; intros Hno σ σ' Hrun k Hk.
  - by apply elem_of_nil in Hk.
  - simpl in Hno. apply not_elem_of_cons in Hno as [Hk' Hno].
    simpl in Hrun. apply bind_Ok_inv in Hrun as ([] & σ1 & Hturn & Hrest).
    simpl in Hk. apply elem_of_cons in Hk as [->|Hk]; [|by eapply IH].
    apply load_unit_step in Hturn as (v & d & lm & cm & _ & Hs & Hm & Hlm & Hne & ->).
    eapply restore_loop_keeps_child; [done..|].
    destruct (has_child_step σ self k' k' v d lm cm) as [Hch _]; try done.
    exists (dict_set k' v cm). split; [done|]. apply dict_keys_set_elem. by left.
Qed.

(** The block that restores the units, when it ends normally on a
    section that is a dictionary. *)
Lemma restore_units_Ok_inv self lc c σ σ' :
  σ !! lc = Some (ODict c) →
  restore_units env self (VRef lc) σ = (Ok tt, σ') →
  ∃ σ4 a4,
    for_each c (λ kv, load_unit env self (fst kv) (snd kv)) σ = (Ok tt, σ4) ∧
    σ4 !! self = Some (OInstance a4) ∧
    σ' = <[self:=OInstance (dict_set "__codegen__" (VRef (length σ4)) a4)]>
           (σ4 ++ [OList (map VStr (dict_keys c))]).
Proof.
  intros Hlc Hrun. unfold restore_units in Hrun.
  rewrite (bind_run _ _ σ c σ) in Hrun by (unfold read, dict_of; by rewrite Hlc).
  apply bind_Ok_inv in Hrun as ([] & σ4 & Hloop & Hrun).
  destruct (restore_loop_section self lc c σ σ4 c Hloop Hlc) as (cc' & Hlc4 & Hkeys).
  { intros [k e] Hin. apply list_elem_of_In. apply in_map. by apply list_elem_of_In. }
  rewrite (bind_run _ _ σ4 (dict_keys c) σ4) in Hrun
    by (unfold read, dict_of; by rewrite Hlc4, Hkeys).
  rewrite (bind_run _ _ σ4 (length σ4) (σ4 ++ [OList (map VStr (dict_keys c))])) in Hrun
    by done.
  apply setattr_plain_Ok_inv in Hrun as (a5 & Hs5 & ->); [|done].
  exists σ4, a5. split; [done|]. split; [|done].
  apply lookup_app_Some in Hs5 as [?|[Hge Hs5]]; [done|].
  destruct (self - length σ4) as [|n]; simpl in Hs5; [done|]. by rewrite lookup_nil in Hs5.
Qed.

End RestoreLoop.

(** The registry right after the block has assigned it. *)
Lemma registry_after_restore_units (σ4 : heap) self a4 (names : list value) :
  σ4 !! self = Some (OInstance a4) →
  registry_in
    (<[self:=OInstance (dict_set "__codegen__" (VRef (length σ4)) a4)]>
       (σ4 ++ [OList names])) self
  = Ok names.
Proof.
  intros Hs4. assert (self < length σ4) as Hlt by (by eapply lookup_lt_Some).
  apply registry_in_Ok. eexists _, (length σ4). split; [|split].
  - apply list_lookup_insert_eq. rewrite length_app. lia.
  - apply dict_get_set_eq.
  - rewrite lookup_store_ne by lia. by apply list_lookup_middle.
Qed.

(** C3.  After a successful restore of a state whose encoded-units
    section has entries under the names [n1 .. nk], in that order, the
    registry is the list [n1 .. nk], in that order. *)
Theorem restore_registry_order env σ self ld dd lc c σ' :
  σ !! ld = Some (ODict dd) →
  dict_get "__codegen__" dd = Some (VRef lc) →
  σ !! lc = Some (ODict c) →
  __setstate__ env self (VRef ld) σ = (Ok tt, σ') →
  registry_in σ' self = Ok (map VStr (dict_keys c)).
Proof.
  intros Hld Hsec Hlc Hrun.
  destruct (σ !! self) as [[a| |]|] eqn:Hs.
  2-4: (destruct (setstate_not_instance env self ld σ dd Hld) as [σ'' Hrun'];
        [congruence|]; congruence).
  rewrite (setstate_run env self ld σ dd a Hld Hs), Hsec in Hrun.
  assert (lc ≠ self) as Hne by (intros ->; congruence).
  apply (restore_units_Ok_inv env self lc c) in Hrun as (σ4 & a4 & _ & Hs4 & ->).
  - by apply registry_after_restore_units.
  - apply lookup_app_l_Some. by rewrite lookup_store_ne.
Qed.

Section Invariant.

Variable env : services.

Lemma has_child_mono σ τ self k : has_child σ self k → has_child (σ ++ τ) self k.
Proof. intros (m & Hm & Hk). exists m. split; [by apply children_in_mono | done]. Qed.

Lemma resolves_app σ self reg1 reg2 :
  resolves σ self reg1 → resolves σ self reg2 → resolves σ self (reg1 ++ reg2).
Proof. intros H1 H2 x [?|?]%elem_of_app; auto. Qed.

(** The registration loop, when it ends normally: the children are still
    children and every incoming name is one. *)
Lemma register_loop_Ok_children self units :
  ∀ σ σ',
    for_each units (λ kv, register_unit env self (fst kv) (snd kv)) σ = (Ok tt, σ') →
    (∀ k, has_child σ self k → has_child σ' self k) ∧
    (∀ k, k ∈ dict_keys units → has_child σ' self k).
Proof.
  induction units as [|[k0 v0] units IH]; intros σ σ' Hrun.
  - simpl in Hrun. unfold ret in Hrun. simplify_eq.
    split; [done | intros k Hk; by apply elem_of_nil in Hk].
  - simpl in Hrun. apply bind_Ok_inv in Hrun as ([] & σ1 & Hturn & Hrest).
    destruct (register_unit_cases env self k0 v0 σ)
      as [[e He]|(d & lm & c & w & Hd & Hm & Hlm & Hok)]; [congruence|].
    rewrite Hok in Hturn. injection Hturn as <-.
    assert (children_in (<[lm:=ODict (dict_set k0 w c)]> σ) self = Ok (dict_set k0 w c))
      as Hch by (by eapply children_in_store_dict).
    destruct (IH _ _ Hrest) as [Hold Hnew]. split.
    + intros k (m & Hm0 & Hk). apply Hold. exists (dict_set k0 w c). split; [done|].
      apply children_in_Ok in Hm0 as (d' & lm' & Hs' & Hm' & Hlm').
      apply attrs_of_Ok in Hd. assert (m = c) as -> by congruence.
      apply dict_keys_set_elem. by right.
    + intros k [->|Hk]%elem_of_cons; [|by apply Hnew].
      apply Hold. exists (dict_set k0 w c). split; [done|].
      apply dict_keys_set_elem. by left.
Qed.

Lemma register_Ok_resolves self funcs σ σ' reg :
  registry_before σ self reg → resolves σ self reg →
  _codegen_register env self funcs σ = (Ok tt, σ') →
  registry_in σ' self = Ok (reg ++ map VStr (dict_keys funcs)) ∧
  resolves σ' self (reg ++ map VStr (dict_keys funcs)).
Proof.
  intros Hbefore Hres Hrun.
  assert (∃ d, σ !! self = Some (OInstance d)) as [d Hs].
  { destruct Hbefore as [(d & l & ? & _)%registry_in_Ok|[_ Hno]]; [eauto|].
    unfold getattr_in in Hno. destruct (σ !! self) as [[d| |]|]; try discriminate. eauto. }
  destruct (register_prologue env self funcs σ d reg Hs Hbefore)
    as (σ1 & d1 & Heq & Hs1 & Hm1 & Hreg1 & Hkeep).
  rewrite Heq in Hrun.
  assert (∀ k, has_child σ self k → has_child σ1 self k) as Hc1.
  { intros k (m & (d' & lm & Hs' & Hm & Hlm)%children_in_Ok & Hk).
    assert (d' = d) as -> by congruence.
    exists m. split; [|done]. apply children_in_Ok. exists d1, lm.
    split; [done|]. split; [congruence | by apply Hkeep]. }
  destruct (register_loop_Ok_children self funcs σ1 σ' Hrun) as [Hold Hnew].
  split.
  - rewrite <- Hreg1. rewrite <- (register_loop_registry env self funcs σ1).
    by rewrite Hrun.
  - apply resolves_app.
    + intros x Hx. destruct (Hres x Hx) as (s & -> & Hc). eauto.
    + intros x (s & <- & Hk)%list_elem_of_In%in_map_iff.
      exists s. split; [done|]. by apply Hnew, list_elem_of_In.
Qed.

Lemma restore_Ok_invariant self ld dd lc c σ σ' :
  σ !! ld = Some (ODict dd) →
  dict_get "__codegen__" dd = Some (VRef lc) →
  σ !! lc = Some (ODict c) →
  NoDup (dict_keys c) → "_modules" ∉ dict_keys c →
  __setstate__ env self (VRef ld) σ = (Ok tt, σ') →
  registry_invariant σ' self.
Proof.
  intros Hld Hsec Hlc Hnd Hno Hrun.
  destruct (σ !! self) as [[a| |]|] eqn:Hs.
  2-4: (destruct (setstate_not_instance env self ld σ dd Hld) as [σ'' Hrun'];
        [congruence|]; congruence).
  rewrite (setstate_run env self ld σ dd a Hld Hs), Hsec in Hrun.
  assert (lc ≠ self) as Hne by (intros ->; congruence).
  apply (restore_units_Ok_inv env self lc c) in Hrun as (σ4 & a4 & Hloop & Hs4 & ->).
  2:{ apply lookup_app_l_Some. by rewrite lookup_store_ne. }
  exists (map VStr (dict_keys c)).
  split; [by apply registry_after_restore_units|].
  split; [|exact (NoDup_fmap_2 VStr _ Hnd)].
  intros x (s & <- & Hk)%list_elem_of_In%in_map_iff. apply list_elem_of_In in Hk.
  exists s. split; [done|].
  destruct (restore_loop_children env self c Hno _ _ Hloop s Hk)
    as (m & (d' & lm & Hs' & Hm & Hlm)%children_in_Ok & Hin).
  assert (d' = a4) as -> by congruence.
  assert (lm ≠ self) by (intros ->; congruence).
  exists m. split; [|done]. apply children_in_Ok.
  exists (dict_set "__codegen__" (VRef (length σ4)) a4), lm. split; [|split].
  - apply list_lookup_insert_eq. rewrite length_app.
    apply lookup_lt_Some in Hs4. lia.
  - by rewrite dict_get_set_ne.
  - rewrite lookup_store_ne by done. by apply lookup_app_l_Some.
Qed.

End Invariant.


(** ** Round trip *)

Section RoundTrip.

Variable env : services.
Hypothesis codecs : codec_roundtrip env.

Lemma encode_then_decode smod e :
  encode_unit env smod = Ok e →
  ∃ t b w, e = VPair (VStr t) (VBytes b) ∧ decode_unit env t b = Ok w.
Proof.
  intros (_ & t & b & -> & Hcase)%encode_unit_Ok. destruct codecs as [Hfx Hts].
  destruct Hcase as [(-> & Hk & Hd)|(-> & Hk & Hd)].
  - destruct (Hfx _ _ Hk Hd) as (w & Hw & Hkw). exists "fx", b, w.
    split; [done|]. unfold decode_unit. simpl. by rewrite Hw, Hkw.
  - destruct (Hts _ _ Hk Hd) as (w & Hw & Hkw). exists "torchscript", b, w.
    split; [done|]. unfold decode_unit. simpl. by rewrite Hw, Hkw.
Qed.

Lemma saved_units_loadable ss es :
  Forall2 (λ s e, s ≠ "_modules" ∧ ∃ smod, encode_unit env smod = Ok e) ss es →
  Forall (loadable env) (combine ss es).
Proof.
  induction 1 as [|s e ss es (Hs & smod & He) _ IH]; simpl; constructor; [|done].
  split; [done|]. by eapply encode_then_decode.
Qed.

Lemma load_unit_run self k t b w σ A lm Mc :
  decode_unit env t b = Ok w →
  σ !! self = Some (OInstance A) → dict_get "_modules" A = Some (VRef lm) →
  σ !! lm = Some (ODict Mc) →
  load_unit env self k (VPair (VStr t) (VBytes b)) σ =
    (Ok tt, <[lm:=ODict (dict_set k w Mc)]> (<[self:=OInstance (dict_remove k A)]> σ)).
Proof.
  intros Hdec Hs Hm Hlm. unfold load_unit.
  rewrite (bind_run _ _ σ (VStr t, VBytes b) σ) by done. simpl.
  rewrite (bind_run _ _ σ w σ) by (unfold lift; by rewrite Hdec).
  apply setattr_module_run; try done. by apply decode_unit_Ok in Hdec as [? _].
Qed.

(** The restore loop on loadable entries: it ends normally, having
    written the instance dictionary and the dictionary of children only;
    the children are the former ones and one for each entry. *)
Lemma restore_loop_run self lm items :
  Forall (loadable env) items →
  ∀ σ A Mc,
    σ !! self = Some (OInstance A) → dict_get "_modules" A = Some (VRef lm) →
    σ !! lm = Some (ODict Mc) →
    ∃ A' Mc',
      for_each items (λ kv, load_unit env self (fst kv) (snd kv)) σ =
        (Ok tt, <[lm:=ODict Mc']> (<[self:=OInstance A']> σ)) ∧
      dict_get "_modules" A' = Some (VRef lm) ∧
      (∀ k, dict_get k A' = if bool_decide (k ∈ dict_keys items) then None
                            else dict_get k A) ∧
      (∀ k, k ∈ dict_keys Mc' ↔ k ∈ dict_keys Mc ∨ k ∈ dict_keys items).
Proof.
  induction 1 as [|[k e] items (Hk & t & b & w & He & Hdec) _ IH];
    intros σ A Mc Hs Hm Hlm.
  - exists A, Mc. split; [|split; [done|split]].
    + simpl. unfold ret. rewrite (list_insert_id σ self) by done.
      by rewrite list_insert_id.
    + done.
    + intros k. rewrite elem_of_nil. tauto.
  - simpl in Hk, He. subst e.
    assert (lm ≠ self) as Hne by (intros ->; congruence).
    set (σ1 := <[lm:=ODict (dict_set k w Mc)]> (<[self:=OInstance (dict_remove k A)]> σ)).
    assert (σ1 !! self = Some (OInstance (dict_remove k A))) as Hs1.
    { unfold σ1. rewrite lookup_store_ne by done.
      apply list_lookup_insert_eq. by eapply lookup_lt_Some. }
    assert (σ1 !! lm = Some (ODict (dict_set k w Mc))) as Hlm1.
    { apply list_lookup_insert_eq. rewrite length_insert. by eapply lookup_lt_Some. }
    destruct (IH σ1 (dict_remove k A) (dict_set k w Mc) Hs1) as (A' & Mc' & Hrun & Hm' & HA & HM);
      [by rewrite dict_get_remove_ne | done |].
    exists A', Mc'. split; [|split; [done|split]].
    + simpl. erewrite bind_run; [|by eapply load_unit_run]. fold σ1. rewrite Hrun.
      f_equal. unfold σ1.
      rewrite (list_insert_insert_ne _ self lm) by done.
      by rewrite !list_insert_insert_eq.
    + intros k'. rewrite HA. simpl.
      destruct (decide (k' = k)) as [->|Hkk].
      * rewrite (bool_decide_eq_true_2 (k ∈ k :: dict_keys items)) by left.
        case_bool_decide; [done | apply dict_get_remove_eq].
      * rewrite dict_get_remove_ne by done.
        do 2 case_bool_decide; try done; exfalso; rewrite elem_of_cons in *; tauto.
    + intros k'. rewrite HM, dict_keys_set_elem. simpl. rewrite elem_of_cons. tauto.
Qed.

End RoundTrip.

Section RoundTripRun.

Variable env : services.

(** The block that restores the units, on a host with a dictionary of
    children and a section of loadable entries. *)
Lemma restore_units_run self lc lm c σ A Mc :
  Forall (loadable env) c →
  σ !! self = Some (OInstance A) → dict_get "_modules" A = Some (VRef lm) →
  σ !! lm = Some (ODict Mc) → σ !! lc = Some (ODict c) → lc ≠ lm →
  ∃ σ' Mc',
    restore_units env self (VRef lc) σ = (Ok tt, σ') ∧
    registry_in σ' self = Ok (map VStr (dict_keys c)) ∧
    children_in σ' self = Ok Mc' ∧
    (∀ k, k ∈ dict_keys Mc' ↔ k ∈ dict_keys Mc ∨ k ∈ dict_keys c).
Proof.
  intros Hload Hs Hm Hlm Hlc Hne.
  assert (lm ≠ self) as Hlms by (intros ->; congruence).
  assert (lc ≠ self) as Hlcs by (intros ->; congruence).
  destruct (restore_loop_run env self lm c Hload σ A Mc Hs Hm Hlm)
    as (A' & Mc' & Hloop & Hm' & _ & Hkeys).
  set (σ4 := <[lm:=ODict Mc']> (<[self:=OInstance A']> σ)) in *.
  assert (self < length σ) as Hlt by (by eapply lookup_lt_Some).
  assert (length σ4 = length σ) as Hlen by (unfold σ4; by rewrite !length_insert).
  assert (σ4 !! lc = Some (ODict c)) as Hlc4 by (unfold σ4; by rewrite !lookup_store_ne).
  assert (σ4 !! self = Some (OInstance A')) as Hs4.
  { unfold σ4. rewrite lookup_store_ne by done. by apply list_lookup_insert_eq. }
  assert (σ4 !! lm = Some (ODict Mc')) as Hlm4.
  { apply list_lookup_insert_eq. rewrite length_insert. by eapply lookup_lt_Some. }
  set (l := length σ4).
  set (σ5 := σ4 ++ [OList (map VStr (dict_keys c))]).
  set (A'' := dict_set "__codegen__" (VRef l) A').
  exists (<[self:=OInstance A'']> σ5), Mc'. split; [|split; [|split; [|done]]].
  - unfold restore_units.
    rewrite (bind_run _ _ σ c σ) by (unfold read, dict_of; by rewrite Hlc).
    rewrite (bind_run _ _ σ tt σ4) by done.
    rewrite (bind_run _ _ σ4 (dict_keys c) σ4) by (unfold read, dict_of; by rewrite Hlc4).
    rewrite (bind_run _ _ σ4 l σ5) by done.
    apply setattr_plain_run; [|done]. by apply lookup_app_l_Some.
  - apply registry_in_Ok. exists A'', l. split; [|split].
    + apply list_lookup_insert_eq. unfold σ5. rewrite length_app. lia.
    + apply dict_get_set_eq.
    + rewrite lookup_store_ne by (unfold l; lia). by apply list_lookup_middle.
  - apply children_in_Ok. exists A'', lm. split; [|split].
    + apply list_lookup_insert_eq. unfold σ5. rewrite length_app. lia.
    + unfold A''. by rewrite dict_get_set_ne.
    + rewrite lookup_store_ne by done. by apply lookup_app_l_Some.
Qed.

End RoundTripRun.


(** * Concrete runs

    The properties above on concrete hosts, with the stand-in services of
    [Toy]; and the hosts on which statements of the specification fail. *)

Example host_a_by_registration :
  _codegen_register (Toy.env "none") Toy.host [("a", Toy.graph ["x"%byte])] Toy.empty_host
  = (Ok tt, Toy.host_a).
Proof. reflexivity. Qed.

Example host_aa_by_registration :
  _codegen_register (Toy.env "none") Toy.host [("a", Toy.graph ["x"%byte])] Toy.host_a
  = (Ok tt, Toy.host_aa).
Proof. reflexivity. Qed.

Lemma toy_codec_roundtrip mode : codec_roundtrip (Toy.env mode).
Proof.
  split; intros [| | | |[[] body]| |] buf Hk [= <-]; try discriminate; simpl; eauto.
Qed.

Lemma toy_unique_attrs : unique_attrs Toy.host_fs Toy.host.
Proof.
  intros d [= <-]. simpl.
  repeat (apply NoDup_cons_2;
          [rewrite ?not_elem_of_cons; repeat split; (discriminate || apply not_elem_of_nil)|]).
  apply NoDup_nil_2.
Qed.


Lemma toy_registry_invariant_host_a : registry_invariant Toy.host_a Toy.host.
Proof.
  exists [VStr "a"]. split; [done|]. split; [|apply NoDup_singleton].
  intros x ->%list_elem_of_singleton. exists "a". split; [done|].
  eexists. split; [reflexivity|]. left.
Qed.


(** The order-preservation scenario of the specification: the registry
    after the restore. *)
Lemma restore_registry_order_witness :
  registry_in
    (snd (__setstate__ (Toy.env "none") 7 (VRef 4) (snd Toy.abc_snapshot))) 7
  = Ok [VStr "a"; VStr "b"; VStr "c"].
Proof.
  exact (restore_registry_order (Toy.env "none") (snd Toy.abc_snapshot) 7 4
           [("training", VInt 1); ("_modules", VRef 5); ("__codegen__", VRef 6)] 6
           [("a", VPair (VStr "fx") (VBytes ["g"%byte; "x"%byte]));
            ("b", VPair (VStr "fx") (VBytes ["g"%byte; "y"%byte]));
            ("c", VPair (VStr "fx") (VBytes ["g"%byte; "z"%byte]))]
           _ eq_refl eq_refl eq_refl eq_refl).
Defined.


(** Snapshot of a host with registered and unregistered children. *)
Lemma snapshot_leaves_host_witness :
  ∃ τ, snd (__getstate__ (Toy.env "none") Toy.host Toy.host_fs) = Toy.host_fs ++ τ.
Proof.
  exact (proj1 (snapshot_leaves_host (Toy.env "none") Toy.host_fs Toy.host)).
Defined.

(** Snapshot of the host on which ["a"] was registered twice. *)
Lemma snapshot_duplicate_name_raises_witness :
  (∃ e, fst (__getstate__ (Toy.env "none") Toy.host Toy.host_aa) = Err e) ∧
  ((∃ m, children_in Toy.host_aa Toy.host = Ok m) →
   (∀ v, v ∈ [VStr "a"; VStr "a"] →
         ∃ s smod e, v = VStr s ∧ getattr_in Toy.host_aa Toy.host s = Ok smod ∧
                     encode_unit (Toy.env "none") smod = Ok e) →
   fst (__getstate__ (Toy.env "none") Toy.host Toy.host_aa) = Err KeyError).
Proof.
  exact (snapshot_duplicate_name_raises (Toy.env "none") Toy.host_aa Toy.host
           [VStr "a"; VStr "a"] "a" [] [] [] eq_refl eq_refl).
Defined.

(** The state returned for the host with an unregistered script
    module. *)
Lemma snapshot_encodes_registered_units_witness :
  let σ' := snd (__getstate__ (Toy.env "none") Toy.host Toy.host_fg) in
  ∃ outd vs section vm mods,
    dict_of σ' (VRef 4) = Ok outd ∧
    dict_get "__codegen__" outd = Some vs ∧ dict_of σ' vs = Ok section ∧
    dict_get "_modules" outd = Some vm ∧ dict_of σ' vm = Ok mods ∧
    (∀ x, x ∈ [VStr "f"] → ∃ s tag b, x = VStr s ∧
            dict_get s section = Some (VPair (VStr tag) (VBytes b)) ∧
            (tag = "fx" ∨ tag = "torchscript")) ∧
    (∀ k e, (k, e) ∈ section →
            VStr k ∈ [VStr "f"] ∧ ∃ tag b, e = VPair (VStr tag) (VBytes b)) ∧
    no_script_module_in section ∧
    (∀ k, VStr k ∈ [VStr "f"] → dict_get k mods = None) ∧
    (∀ k, VStr k ∉ [VStr "f"] →
          dict_get k mods =
          dict_get k [("f", Toy.graph ["x"%byte]); ("g", Toy.script ["y"%byte])]).
Proof.
  exact (snapshot_encodes_registered_units (Toy.env "none") Toy.host_fg Toy.host
           [VStr "f"] _ (VRef 4) _ eq_refl eq_refl eq_refl).
Defined.

(** The specification's guarantee fails on that host: the script module
    ["g"] is still among the children of the state. *)
Lemma snapshot_keeps_unregistered_script_module :
  ¬ snapshot_free_of_script_modules (Toy.env "none") Toy.host_fg Toy.host.
Proof.
  intros H.
  destruct (H [VStr "f"] (VRef 4)
              (snd (__getstate__ (Toy.env "none") Toy.host Toy.host_fg))
              [("training", VInt 1); ("_modules", VRef 5); ("__codegen__", VRef 6)]
              eq_refl) as (_ & v & mods & Hv & Hmods & Hno); try reflexivity.
  - intros x ->%list_elem_of_singleton.
    exists "f", (Toy.graph ["x"%byte]). split; [done|]. split; [done | by left].
  - injection Hv as <-. vm_compute in Hmods. injection Hmods as <-.
    specialize (Hno "g" (Toy.script ["y"%byte]) (list_elem_of_here _ _)). discriminate.
Qed.

(** Restoring a state without a section into a host that has a
    registry. *)
Lemma restore_without_section_witness :
  ∃ σ', __setstate__ (Toy.env "none") Toy.host (VRef 3) Toy.host_a_and_plain_state
        = (Ok tt, σ') ∧
        attrs_of σ' Toy.host
        = Ok (dict_update [("training", VInt 1); ("_modules", VRef 1); ("__codegen__", VRef 2)]
                [("training", VInt 0)]) ∧
        registry_in σ' Toy.host = registry_in Toy.host_a_and_plain_state Toy.host ∧
        (registry_empty Toy.host_a_and_plain_state Toy.host → registry_empty σ' Toy.host).
Proof.
  exact (restore_without_section (Toy.env "none") Toy.host_a_and_plain_state Toy.host 3
           [("training", VInt 0)] _ eq_refl eq_refl eq_refl).
Defined.

(** The specification's statement fails on that host: the registry still
    holds ["a"] after the restore. *)
Lemma restore_without_section_keeps_registry :
  ¬ restore_without_section_empties_registry (Toy.env "none")
      Toy.host_a_and_plain_state Toy.host (VRef 3).
Proof.
  intros H.
  destruct (H [("training", VInt 0)] _ eq_refl eq_refl eq_refl) as (_ & _ & [He|He]);
    vm_compute in He; discriminate.
Qed.



Lemma toy_registry_invariant_host_fs : registry_invariant Toy.host_fs Toy.host.
Proof.
  exists [VStr "f"; VStr "s"]. split; [done|]. split.
  - intros x [->|[->|[]%elem_of_nil]%elem_of_cons]%elem_of_cons.
    + exists "f". split; [done|]. eexists. split; [reflexivity|]. left.
    + exists "s". split; [done|]. eexists. split; [reflexivity|]. right. right. left.
  - apply NoDup_cons_2; [|apply NoDup_singleton].
    intros [=]%list_elem_of_singleton.
Qed.





(** * Further properties of registration *)

Lemma for_each_preserves_elem {A} (P : heap → Prop) (body : A → M unit) l :
  (∀ x σ, x ∈ l → P σ → P (snd (body x σ))) →
  ∀ σ, P σ → P (snd (for_each l body σ)).
Proof.
  induction l as [|x l IH]; intros Hbody σ HP; simpl; [done|].
  unfold bind. pose proof (Hbody x σ (list_elem_of_here _ _) HP) as Hx.
  destruct (body x σ) as [[[]|e] σ1]; simpl in *; [|done].
  apply IH; [|done]. intros y σ' Hy. apply Hbody. by right.
Qed.

Section RegisterInstall.

Variable env : services.

Lemma register_unit_install self k v s σ d lm c :
  installs env (k, v) s →
  σ !! self = Some (OInstance d) → dict_get "_modules" d = Some (VRef lm) →
  σ !! lm = Some (ODict c) →
  register_unit env self k v σ = (Ok tt, <[lm:=ODict (dict_set k s c)]> σ).
Proof.
  intros [Hg Hs] Hself Hm Hlm. simpl in *. unfold register_unit.
  rewrite (bind_run _ _ σ tt σ) by (unfold assert; by rewrite Hg).
  rewrite (bind_run _ _ σ s σ).
  - eapply add_module_Ok; [by apply attrs_of_Ok|done..].
  - destruct (String.eqb (jit_mode env) "script").
    + destruct Hs as [Hc Hs]. unfold bind, lift, assert, ret. by rewrite Hc, Hs.
    + by subst.
Qed.

Lemma register_loop_install self units installed :
  Forall2 (installs env) units installed →
  ∀ σ d lm c,
    σ !! self = Some (OInstance d) → dict_get "_modules" d = Some (VRef lm) →
    σ !! lm = Some (ODict c) →
    for_each units (λ kv, register_unit env self (fst kv) (snd kv)) σ =
      (Ok tt, <[lm:=ODict (dict_update c (combine (dict_keys units) installed))]> σ).
Proof.
  induction 1 as [|[k v] s units installed Hi _ IH]; intros σ d lm c Hself Hm Hlm; simpl.
  - by rewrite list_insert_id.
  - assert (lm ≠ self) by (intros ->; congruence).
    erewrite bind_run; [|by eapply register_unit_install]. simpl.
    erewrite IH; [|by rewrite lookup_store_ne|done|by eapply lookup_store_dict_eq].
    by rewrite list_insert_insert_eq.
Qed.

(** The first lines of registration, for any list of incoming names: the
    registry, created first when the host has none, is extended in
    place. *)
Lemma register_prologue_explicit self σ d reg :
  σ !! self = Some (OInstance d) → registry_before σ self reg →
  ∃ σb d1 l,
    (∀ funcs, _codegen_register env self funcs σ =
       for_each funcs (λ kv, register_unit env self (fst kv) (snd kv))
         (<[l:=OList (reg ++ map VStr (dict_keys funcs))]> σb)) ∧
    σb !! self = Some (OInstance d1) ∧ σb !! l = Some (OList reg) ∧
    dict_get "__codegen__" d1 = Some (VRef l) ∧
    (∀ k, k ≠ "__codegen__" → dict_get k d1 = dict_get k d) ∧
    (∀ lm c, σ !! lm = Some (ODict c) → σb !! lm = Some (ODict c)) ∧
    (registry_in σ self = Ok reg → σb = σ).
Proof.
  intros Hs [Hreg|[-> Hno]].
  - pose proof Hreg as (d' & l & Hs' & Hg & Hl)%registry_in_Ok. simplify_eq.
    exists σ, d, l. repeat split; try done.
    intros funcs. by eapply register_with_registry.
  - set (l := length σ).
    set (d1 := dict_set "__codegen__" (VRef l) d).
    set (σa := σ ++ [OList []]).
    set (σb := <[self:=OInstance d1]> σa).
    assert (self < length σ) as Hlt by (by eapply lookup_lt_Some).
    assert (σa !! self = Some (OInstance d)) as Hsa by (by apply lookup_app_l_Some).
    assert (σb !! self = Some (OInstance d1)) as Hsb.
    { apply list_lookup_insert_eq. unfold σa. rewrite length_app. lia. }
    assert (σb !! l = Some (OList [])) as Hlb.
    { unfold σb. rewrite lookup_store_ne by (unfold l; lia). by apply list_lookup_middle. }
    exists σb, d1, l. split; [|split; [done|split; [done|split; [|split; [|split]]]]].
    + intros funcs. unfold _codegen_register.
      rewrite (bind_run _ _ σ false σ) by (unfold hasattr, read; by rewrite Hno).
      rewrite (bind_run _ _ σ tt σb).
      2:{ rewrite (bind_run _ _ σ l σa) by done. by apply setattr_plain_run. }
      rewrite (bind_run _ _ σb (VRef l) σb).
      2:{ unfold getattr, read. erewrite getattr_in_attr; [done..|]. apply dict_get_set_eq. }
      rewrite (bind_run _ _ σb tt (<[l:=OList (map VStr (dict_keys funcs))]> σb)); [done|].
      unfold list_extend, bind, read, store. by rewrite Hlb.
    + apply dict_get_set_eq.
    + intros k Hk. unfold d1. by rewrite dict_get_set_ne.
    + intros lm c Hc. assert (lm < length σ) by (by eapply lookup_lt_Some).
      unfold σb. rewrite lookup_store_ne by (intros ->; congruence).
      by apply lookup_app_l_Some.
    + intros Hreg. exfalso. apply registry_in_Ok in Hreg as (d' & l' & Hs' & Hg & _).
      simplify_eq. unfold getattr_in in Hno. by rewrite Hs, Hg in Hno.
Qed.

(** Registration of units of which the first ones install: the call comes
    down to the loop over the others, with the registry extended by all
    the names and the first units among the children. *)
Lemma register_run_prefix self units rest installed σ reg m :
  registry_before σ self reg → children_in σ self = Ok m →
  Forall2 (installs env) units installed →
  ∃ σ2 d2,
    _codegen_register env self (units ++ rest) σ =
      for_each rest (λ kv, register_unit env self (fst kv) (snd kv)) σ2 ∧
    registry_in σ2 self = Ok (reg ++ map VStr (dict_keys (units ++ rest))) ∧
    children_in σ2 self = Ok (dict_update m (combine (dict_keys units) installed)) ∧
    σ2 !! self = Some (OInstance d2) ∧
    (∀ d k, σ !! self = Some (OInstance d) → k ≠ "__codegen__" →
            dict_get k d2 = dict_get k d).
Proof.
  intros Hreg (d & lm & Hs & Hm & Hlm)%children_in_Ok Hunits.
  destruct (register_prologue_explicit self σ d reg Hs Hreg)
    as (σb & d1 & l & Hrun & Hsb & Hlb & Hg1 & Hd1 & Hkeep & _).
  set (names := reg ++ map VStr (dict_keys (units ++ rest))).
  set (σ1 := <[l:=OList names]> σb).
  assert (l ≠ self) as Hls by (intros ->; congruence).
  assert (l ≠ lm) as Hllm by (intros ->; rewrite (Hkeep _ _ Hlm) in Hlb; congruence).
  assert (σ1 !! self = Some (OInstance d1)) as Hs1 by (unfold σ1; by rewrite lookup_store_ne).
  assert (σ1 !! lm = Some (ODict m)) as Hlm1.
  { unfold σ1. rewrite lookup_store_ne by done. by apply Hkeep. }
  assert (dict_get "_modules" d1 = Some (VRef lm)) as Hm1 by (by rewrite Hd1).
  assert (registry_in σ1 self = Ok names) as Hreg1.
  { apply registry_in_Ok. exists d1, l. repeat split; try done.
    apply list_lookup_insert_eq. by eapply lookup_lt_Some. }
  set (m' := dict_update m (combine (dict_keys units) installed)).
  assert (lm ≠ self) as Hlms by (intros ->; congruence).
  exists (<[lm:=ODict m']> σ1), d1. split; [|split; [|split; [|split]]].
  - rewrite Hrun. fold names σ1. rewrite for_each_app.
    by rewrite (register_loop_install self units installed Hunits σ1 d1 lm m).
  - by erewrite registry_in_store_dict.
  - eapply children_in_store_dict; [done| |done]. by apply attrs_of_Ok.
  - by rewrite lookup_store_ne.
  - intros d' k Hd' Hk. simplify_eq. by apply Hd1.
Qed.

End RegisterInstall.

Lemma combine_app_Forall2 {P : (string * value) → value → Prop}
    (u1 u2 : list (string * value)) (i1 i2 : list value) :
  Forall2 P u1 i1 →
  combine (dict_keys (u1 ++ u2)) (i1 ++ i2)
  = combine (dict_keys u1) i1 ++ combine (dict_keys u2) i2.
Proof. induction 1; simpl; [done | by f_equal]. Qed.

Lemma dict_update_app d s1 s2 : dict_update d (s1 ++ s2) = dict_update (dict_update d s1) s2.
Proof. unfold dict_update. apply fold_left_app. Qed.

Lemma installs_plain env units installed :
  String.eqb (jit_mode env) "script" = false →
  Forall2 (installs env) units installed → combine (dict_keys units) installed = units.
Proof.
  intros Hmode. induction 1 as [|[k v] s units installed [_ Hs] _ IH]; simpl; [done|].
  rewrite Hmode in Hs. simpl in Hs. subst s. by rewrite IH.
Qed.

Lemma installs_script env units installed :
  String.eqb (jit_mode env) "script" = true →
  Forall2 (installs env) units installed →
  Forall (λ s, isinstance_ScriptModule s = true) installed.
Proof.
  intros Hmode. induction 1 as [|[k v] s units installed [_ Hs] _ IH]; constructor; [|done].
  rewrite Hmode in Hs. by destruct Hs.
Qed.



(** X3.  Registering an empty dictionary ends normally and installs
    nothing.  A host that has a registry is left exactly as it was; a host
    that has none gets an empty one, and keeps its children. *)
Theorem register_nothing env σ self reg :
  registry_before σ self reg →
  ∃ σ', _codegen_register env self [] σ = (Ok tt, σ') ∧
        registry_in σ' self = Ok reg ∧
        (registry_in σ self = Ok reg → σ' = σ) ∧
        (∀ m, children_in σ self = Ok m → children_in σ' self = Ok m).
Proof.
  intros Hreg.
  assert (∃ d, σ !! self = Some (OInstance d)) as [d Hs].
  { destruct Hreg as [(d & l & ? & _)%registry_in_Ok|[_ Hno]]; [eauto|].
    unfold getattr_in in Hno. destruct (σ !! self) as [[d| |]|]; try discriminate. eauto. }
  destruct (register_prologue_explicit env self σ d reg Hs Hreg)
    as (σb & d1 & l & Hrun & Hsb & Hlb & Hg1 & Hd1 & Hkeep & Hsame).
  assert (<[l:=OList (reg ++ map VStr (dict_keys []))]> σb = σb) as Hid.
  { simpl. rewrite app_nil_r. by apply list_insert_id. }
  exists σb. split; [by rewrite Hrun, Hid|]. split; [|split; [done|]].
  - apply registry_in_Ok. by exists d1, l.
  - intros m (d' & lm & Hs' & Hm & Hlm)%children_in_Ok. simplify_eq.
    apply children_in_Ok. exists d1, lm. split; [done|]. split; [|by apply Hkeep].
    by rewrite Hd1.
Qed.


Section RegisterFrame.

Variable env : services.

(** The first lines of registration on any instance: they end in the
    loop or raise, and in both cases write the registry only. *)
Lemma register_prologue_frame self funcs σ d :
  σ !! self = Some (OInstance d) →
  ∃ σ1 d1,
    (_codegen_register env self funcs σ =
       for_each funcs (λ kv, register_unit env self (fst kv) (snd kv)) σ1 ∨
     ∃ e, _codegen_register env self funcs σ = (Err e, σ1)) ∧
    σ1 !! self = Some (OInstance d1) ∧
    (∀ k, k ≠ "__codegen__" → dict_get k d1 = dict_get k d) ∧
    (∀ lm c, σ !! lm = Some (ODict c) → σ1 !! lm = Some (ODict c)).
Proof.
  intros Hs. destruct (getattr_in σ self "__codegen__") as [v|e] eqn:Hg.
  - assert (_codegen_register env self funcs σ =
            (list_extend v (map VStr (dict_keys funcs)) ;;
             for_each funcs (λ kv, register_unit env self (fst kv) (snd kv))) σ) as ->.
    { unfold _codegen_register.
      rewrite (bind_run _ _ σ true σ) by (unfold hasattr, read; by rewrite Hg).
      rewrite (bind_run _ _ σ tt σ) by done.
      by rewrite (bind_run _ _ σ v σ) by (unfold getattr, read; by rewrite Hg). }
    unfold list_extend, bind, read, store.
    destruct v as [| | | | | |l]; try by (exists σ, d; split; [right; eexists; reflexivity | done]).
    destruct (σ !! l) as [[?|?|reg]|] eqn:Hl; try by (exists σ, d; split; [right; eexists; reflexivity | done]).
    exists (<[l:=OList (reg ++ map VStr (dict_keys funcs))]> σ), d.
    split; [by left|]. split; [|split; [done|]].
    + rewrite lookup_store_ne; [done|]. intros ->. congruence.
    + intros lm c Hc. rewrite lookup_store_ne; [done|]. intros ->. congruence.
  - destruct (decide (e = AttributeError)) as [->|Hne].
    + destruct (register_prologue_explicit env self σ d [] Hs)
        as (σb & d1 & l & Hrun & Hsb & Hlb & Hg1 & Hd1 & Hkeep & _); [by right|].
      exists (<[l:=OList ([] ++ map VStr (dict_keys funcs))]> σb), d1.
      split; [by left|]. split; [|split; [done|]].
      * rewrite lookup_store_ne; [done|]. intros ->. congruence.
      * intros lm c Hc. rewrite lookup_store_ne; [by apply Hkeep|].
        intros ->. rewrite (Hkeep _ _ Hc) in Hlb. congruence.
    + exists σ, d. split; [|done]. right. exists e.
      unfold _codegen_register. apply bind_fail. unfold hasattr, read. rewrite Hg.
      by destruct e.
Qed.

Lemma register_unit_frame self funcs d1 lm m k v σ :
  k ∈ dict_keys funcs →
  σ !! self = Some (OInstance d1) → dict_get "_modules" d1 = Some (VRef lm) →
  (∃ m', σ !! lm = Some (ODict m') ∧
         (∀ k', k' ∉ dict_keys funcs → dict_get k' m' = dict_get k' m) ∧
         (∀ k', k' ∈ dict_keys m → k' ∈ dict_keys m')) →
  let σ' := snd (register_unit env self k v σ) in
  σ' !! self = Some (OInstance d1) ∧
  ∃ m', σ' !! lm = Some (ODict m') ∧
        (∀ k', k' ∉ dict_keys funcs → dict_get k' m' = dict_get k' m) ∧
        (∀ k', k' ∈ dict_keys m → k' ∈ dict_keys m').
Proof.
  intros Hk Hs Hm (m' & Hlm & Hsame & Hsub).
  destruct (register_unit_cases env self k v σ)
    as [[e ->]|(d & lm0 & c & w & Hd & Hm0 & Hc & ->)]; simpl; [eauto|].
  apply attrs_of_Ok in Hd. simplify_eq.
  assert (lm ≠ self) by (intros ->; congruence).
  split; [by rewrite lookup_store_ne|].
  exists (dict_set k w m'). split; [by eapply lookup_store_dict_eq|]. split.
  - intros k' Hk'. rewrite dict_get_set_ne; [by apply Hsame|]. by intros ->.
  - intros k' Hk'. apply dict_keys_set_elem. right. by apply Hsub.
Qed.

End RegisterFrame.

(** X5.  Whatever registration does and however it ends, it writes the
    registry and the children it is given, nothing else: every other
    attribute of the host keeps its value, every child under a name that
    is not among the incoming ones is the module it was, and no child is
    removed. *)
Theorem register_leaves_the_rest env σ self funcs d :
  σ !! self = Some (OInstance d) →
  let σ' := snd (_codegen_register env self funcs σ) in
  ∃ d', σ' !! self = Some (OInstance d') ∧
        (∀ k, k ≠ "__codegen__" → dict_get k d' = dict_get k d) ∧
        (∀ m, children_in σ self = Ok m →
           ∃ m', children_in σ' self = Ok m' ∧
                 (∀ k, k ∉ dict_keys funcs → dict_get k m' = dict_get k m) ∧
                 (∀ k, k ∈ dict_keys m → k ∈ dict_keys m')).
Proof.
  intros Hs σ'. subst σ'.
  destruct (register_prologue_frame env self funcs σ d Hs)
    as (σ1 & d1 & Hrun & Hs1 & Hd1 & Hkeep).
  set (P := λ τ : heap,
         τ !! self = Some (OInstance d1) ∧
         ∀ lm m, dict_get "_modules" d1 = Some (VRef lm) → σ1 !! lm = Some (ODict m) →
           ∃ m', τ !! lm = Some (ODict m') ∧
                 (∀ k, k ∉ dict_keys funcs → dict_get k m' = dict_get k m) ∧
                 (∀ k, k ∈ dict_keys m → k ∈ dict_keys m')).
  assert (P σ1) as HP1 by (split; [done|]; intros lm m _ Hlm; eauto).
  assert (P (snd (_codegen_register env self funcs σ))) as [Hs' Hch'].
  { destruct Hrun as [->|[e ->]]; [|done].
    apply (for_each_preserves_elem P); [|done].
    intros [k v] τ Hkv [Hτs Hτ]. simpl.
    assert (k ∈ dict_keys funcs) as Hk.
    { apply list_elem_of_In, in_map_iff. exists (k, v). split; [done|].
      by apply list_elem_of_In. }
    destruct (dict_get "_modules" d1) as [[| | | | | |lm]|] eqn:Hm.
    1-6,8: (destruct (register_unit_cases env self k v τ)
              as [[e ->]|(d0 & lm0 & c & w & Hd0%attrs_of_Ok & Hm0 & _)];
            [by split | congruence]).
    destruct (σ1 !! lm) as [[|m|]|] eqn:Hlm.
    2:{ destruct (register_unit_frame env self funcs d1 lm m k v τ Hk Hτs Hm) as [? ?];
          [by apply Hτ|]. split; [done|]. intros lm' m' [= <-] Hm'. by simplify_eq. }
    all: (destruct (register_unit_cases env self k v τ)
            as [[e ->]|(d0 & lm0 & c & w & Hd0%attrs_of_Ok & Hm0 & Hc & ->)];
          [split; [done|]; intros ?? [= <-]; congruence|]).
    all: simplify_eq; simpl.
    all: assert (lm ≠ self) by (intros ->; congruence).
    all: split; [by rewrite lookup_store_ne | intros ?? [= <-]; congruence]. }
  exists d1. split; [done|]. split; [done|].
  intros m (d0 & lm & Hs0 & Hm & Hlm)%children_in_Ok. simplify_eq.
  destruct (Hch' lm m) as (m' & Hlm' & Hsame & Hsub); [by rewrite Hd1 | by apply Hkeep|].
  exists m'. split; [|done]. apply children_in_Ok. exists d1, lm.
  split; [done|]. split; [by rewrite Hd1 | done].
Qed.

(** * Further properties of snapshot *)

(** On a host with a dictionary of children, attribute lookup does not
    depend on objects allocated later. *)
Lemma getattr_in_ext σ τ self k m :
  children_in σ self = Ok m → getattr_in (σ ++ τ) self k = getattr_in σ self k.
Proof.
  intros (d & lm & Hs & Hm & Hlm)%children_in_Ok. unfold getattr_in, dict_of.
  by rewrite (lookup_app_l_Some _ _ _ _ Hs), Hs, Hm, (lookup_app_l_Some _ _ _ _ Hlm), Hlm.
Qed.

Section SnapshotRun.

Variable env : services.

(** The snapshot loop over names that are distinct children, each
    resolved and encoded: every turn ends normally. *)
Lemma save_loop_run self σ ext outd ss es :
  dict_get "_modules" outd = Some (VRef (length (σ ++ ext) + 1)) →
  Forall2 (saved_as env σ self) ss es →
  NoDup ss →
  ∀ m c, Forall (λ s, s ∈ dict_keys m) ss →
    for_each (map VStr ss)
      (save_unit env self (VRef (length (σ ++ ext))) (VRef (length (σ ++ ext) + 2)))
      ((σ ++ ext) ++ [ODict outd; ODict m; ODict c])
    = (Ok tt, (σ ++ ext) ++ [ODict outd; ODict (remove_keys ss m);
                             ODict (dict_update c (combine ss es))]).
Proof.
  intros Hm. induction 1 as [|s e ss es (smod & Hg & He) _ IH]; intros Hnd m c Hin;
    cbn [for_each map combine]; [done|].
  apply NoDup_cons in Hnd as [Hn Hnd]. apply Forall_cons in Hin as [Hs Hin].
  unfold bind. rewrite save_unit_run by done.
  rewrite <- app_assoc, (getattr_in_mono _ _ _ _ _ Hg), He.
  apply dict_mem_true in Hs. rewrite Hs. apply IH; [done|].
  rewrite Forall_forall in *. intros s' Hs'. apply dict_keys_remove_elem.
  split; [by intros -> | by apply Hin].
Qed.

(** The state a successful snapshot returns, with the record of each
    registry name traced to the host. *)
Lemma getstate_Ok_saved self σ reg m blob σ' :
  registry_in σ self = Ok reg → children_in σ self = Ok m →
  __getstate__ env self σ = (Ok blob, σ') →
  ∃ ext d0 ss es,
    let pre := σ ++ ext in
    σ !! self = Some (OInstance d0) ∧
    reg = map VStr ss ∧ NoDup ss ∧ Forall (λ s, s ∈ dict_keys m) ss ∧
    Forall2 (saved_as env σ self) ss es ∧
    blob = VRef (length pre) ∧
    σ' = pre ++ [ODict (dict_set "__codegen__" (VRef (length pre + 2))
                          (dict_set "_modules" (VRef (length pre + 1)) d0));
                 ODict (remove_keys ss m);
                 ODict (combine ss es)].
Proof.
  intros Hreg Hch Hrun.
  destruct (getstate_run_host env self σ reg m Hreg Hch) as (ext & d0 & lm & Hs & Hm & Heq).
  simpl in Heq. rewrite Heq in Hrun. clear Heq.
  set (pre := σ ++ ext) in *.
  set (outd := dict_set "_modules" (VRef (length pre + 1)) d0) in *.
  assert (dict_get "_modules" outd = Some (VRef (length pre + 1))) as Hm'
    by apply dict_get_set_eq.
  destruct (for_each reg _ _) as [[[]|e] σ4] eqn:Hloop; [|discriminate].
  apply (save_loop_Ok env self pre outd reg Hm') in Hloop
    as [[-> ->]|(m' & ss & es & [= <-] & -> & Hnd & Hin & Hall & ->)];
    rewrite (bind_run _ _ _ _ _ (dict_setitem_local0 _ _ _ _ _)) in Hrun;
    unfold ret in Hrun; injection Hrun as <- <-.
  - exists ext, d0, [], []. simpl. repeat split; try done; constructor.
  - exists ext, d0, ss, es. simpl. repeat split; try done.
    + eapply Forall2_impl; [done|]. intros s e (τ & smod & Hg & He). exists smod.
      split; [|done]. unfold pre in Hg. rewrite <- app_assoc in Hg.
      by rewrite (getattr_in_ext _ _ _ _ _ Hch) in Hg.
    + by rewrite (dict_update_fresh []).
Qed.

(** Snapshot of a host whose registry starts with names that are saved:
    the call comes down to the turn of the loop for the next name. *)
Lemma getstate_run_prefix self σ ss es v rest m :
  registry_in σ self = Ok (map VStr ss ++ v :: rest) → children_in σ self = Ok m →
  NoDup ss → Forall (λ s, s ∈ dict_keys m) ss →
  Forall2 (saved_as env σ self) ss es →
  ∃ ext outd,
    let pre := σ ++ ext in
    let σ4 := pre ++ [ODict outd; ODict (remove_keys ss m); ODict (combine ss es)] in
    dict_get "_modules" outd = Some (VRef (length pre + 1)) ∧
    ∀ e σ5,
      save_unit env self (VRef (length pre)) (VRef (length pre + 2)) v σ4 = (Err e, σ5) →
      __getstate__ env self σ = (Err e, σ5).
Proof.
  intros Hreg Hch Hnd Hin Hall.
  destruct (getstate_run_host env self σ _ m Hreg Hch) as (ext & d0 & lm & Hs & Hm & Heq).
  simpl in Heq. exists ext, (dict_set "_modules" (VRef (length (σ ++ ext) + 1)) d0).
  simpl. split; [apply dict_get_set_eq|]. intros e σ5 Hturn.
  rewrite Heq, for_each_app.
  rewrite (save_loop_run self σ ext _ ss es (dict_get_set_eq _ _ _) Hall Hnd m [] Hin).
  rewrite (dict_update_fresh []) by (simpl; exact Hnd). simpl.
  unfold bind at 1. by rewrite Hturn.
Qed.

End SnapshotRun.

(** X6.  Snapshot returns a state whenever the registry holds distinct
    names, each of them a child of the host that resolves to a module the
    codecs accept.  In that state the encoded-units section has one record
    for each registry name, in the order of the registry; the dictionary
    of children is a new one, that of the host without the registered
    names; and every other entry is the attribute of the host itself, not
    a copy of it. *)
Theorem snapshot_returns_state env σ self d0 ss es m :
  σ !! self = Some (OInstance d0) →
  registry_in σ self = Ok (map VStr ss) →
  children_in σ self = Ok m →
  NoDup ss →
  Forall (λ s, s ∈ dict_keys m) ss →
  Forall2 (saved_as env σ self) ss es →
  ∃ blob σ' outd vm vs,
    __getstate__ env self σ = (Ok blob, σ') ∧
    dict_of σ' blob = Ok outd ∧
    dict_get "__codegen__" outd = Some vs ∧ dict_of σ' vs = Ok (combine ss es) ∧
    dict_get "_modules" outd = Some vm ∧ dict_of σ' vm = Ok (remove_keys ss m) ∧
    (∀ k, k ≠ "_modules" → k ≠ "__codegen__" → dict_get k outd = dict_get k d0).
Proof.
  intros Hs Hreg Hch Hnd Hin Hall.
  destruct (getstate_run_host env self σ _ m Hreg Hch) as (ext & d0' & lm & Hs' & Hm & Heq).
  simpl in Heq. simplify_eq.
  rewrite (save_loop_run env self σ ext _ ss es (dict_get_set_eq _ _ _) Hall Hnd m [] Hin)
    in Heq.
  rewrite (dict_update_fresh []) in Heq by (simpl; exact Hnd). simpl in Heq.
  rewrite (bind_run _ _ _ _ _ (dict_setitem_local0 _ _ _ _ _)) in Heq. unfold ret in Heq.
  set (pre := σ ++ ext) in *.
  set (outd := dict_set "_modules" (VRef (length pre + 1)) d0) in *.
  eexists _, _, (dict_set "__codegen__" (VRef (length pre + 2)) outd),
    (VRef (length pre + 1)), (VRef (length pre + 2)).
  split; [exact Heq|]. fold pre.
  split; [unfold dict_of; by rewrite lookup_local0|].
  split; [apply dict_get_set_eq|].
  split; [unfold dict_of; by rewrite lookup_local|].
  split; [rewrite dict_get_set_ne by done; apply dict_get_set_eq|].
  split; [unfold dict_of; by rewrite lookup_local|].
  intros k Hk1 Hk2. unfold outd. by rewrite !dict_get_set_ne.
Qed.

(** X7.  Snapshot of a host that has children and no registry, one on
    which nothing was ever registered, returns a state without an
    encoded-units section: the state is the instance dictionary with a new
    dictionary of children, holding the children of the host. *)
Theorem snapshot_without_registry env σ self d0 m :
  σ !! self = Some (OInstance d0) →
  children_in σ self = Ok m →
  getattr_in σ self "__codegen__" = Err AttributeError →
  ∃ blob σ' outd vm,
    __getstate__ env self σ = (Ok blob, σ') ∧
    dict_of σ' blob = Ok outd ∧
    dict_get "__codegen__" outd = None ∧
    dict_get "_modules" outd = Some vm ∧ dict_of σ' vm = Ok m ∧
    dict_get "_modules" d0 ≠ Some vm ∧
    (∀ k, k ≠ "_modules" → dict_get k outd = dict_get k d0).
Proof.
  intros Hs Hch Hno.
  pose proof Hch as (d0' & lm & Hs' & Hm & Hlm)%children_in_Ok. simplify_eq.
  destruct (getstate_run env self σ d0 Hs) as [ext Hrun]. simpl in Hrun.
  set (pre := σ ++ ext) in *. rewrite Hm in Hrun.
  assert (copy_of (pre ++ [ODict d0]) (VRef lm) = Ok (ODict m)) as Hcopy.
  { unfold copy_of, pre. by rewrite <- app_assoc, (lookup_app_l_Some _ _ _ _ Hlm). }
  rewrite Hcopy in Hrun.
  set (outd := dict_set "_modules" (VRef (length pre + 1)) d0) in *.
  assert (getattr_in (pre ++ [ODict outd; ODict m; ODict []]) self "__codegen__"
          = Err AttributeError) as Hno'.
  { unfold pre. rewrite <- app_assoc. by rewrite (getattr_in_ext _ _ _ _ _ Hch). }
  rewrite Hno' in Hrun.
  exists (VRef (length pre)), (pre ++ [ODict outd; ODict m; ODict []]), outd,
    (VRef (length pre + 1)).
  split; [done|]. split; [unfold dict_of; by rewrite lookup_local0|].
  split; [|split; [apply dict_get_set_eq|split; [|split]]].
  - unfold outd. rewrite dict_get_set_ne by done.
    unfold getattr_in in Hno. rewrite Hs in Hno.
    by destruct (dict_get "__codegen__" d0).
  - unfold dict_of. by rewrite lookup_local.
  - rewrite Hm. intros [= ->]. apply lookup_lt_Some in Hlm.
    unfold pre in Hlm. rewrite length_app in Hlm. lia.
  - intros k Hk. unfold outd. by rewrite dict_get_set_ne.
Qed.

(** X8.  Snapshot of an instance that has no [_modules] entry raises
    [KeyError]. *)
Theorem snapshot_without_children_dict env σ self d0 :
  σ !! self = Some (OInstance d0) →
  dict_get "_modules" d0 = None →
  fst (__getstate__ env self σ) = Err KeyError.
Proof.
  intros Hs Hm. destruct (getstate_run env self σ d0 Hs) as [ext Hrun]. simpl in Hrun.
  by rewrite Hrun, Hm.
Qed.

Lemma Forall2_elem_l {A B} (P : A → B → Prop) l1 l2 x :
  Forall2 P l1 l2 → x ∈ l1 → ∃ y, P x y.
Proof.
  induction 1 as [|a b l1 l2 Hab _ IH]; [intros H; by apply elem_of_nil in H|].
  intros [->|Hx]%elem_of_cons; eauto.
Qed.

Lemma elem_of_map_VStr k ss : VStr k ∈ map VStr ss ↔ k ∈ ss.
Proof.
  rewrite !list_elem_of_In, in_map_iff. split; [|by exists k].
  by intros (s' & [= ->] & ?).
Qed.

(** X9.  Snapshot of a host whose registry holds a name that resolves to
    nothing, neither an attribute nor a child, raises and returns no
    state.  When the names before it in the registry are saved normally,
    the exception is the [AttributeError] of the lookup. *)
Theorem snapshot_unresolved_name_raises env σ self reg m k :
  registry_in σ self = Ok reg →
  children_in σ self = Ok m →
  VStr k ∈ reg →
  getattr_in σ self k = Err AttributeError →
  (∃ e, fst (__getstate__ env self σ) = Err e) ∧
  (∀ ss es rest,
     reg = map VStr ss ++ VStr k :: rest →
     NoDup ss → Forall (λ s, s ∈ dict_keys m) ss →
     Forall2 (saved_as env σ self) ss es →
     fst (__getstate__ env self σ) = Err AttributeError).
Proof.
  intros Hreg Hch Hk Hno. split.
  - destruct (__getstate__ env self σ) as [[blob|e] σ'] eqn:Hrun; [|eauto]. exfalso.
    destruct (getstate_Ok_saved env self σ reg m blob σ' Hreg Hch Hrun)
      as (ext & d0 & ss & es & _ & -> & _ & _ & Hall & _).
    apply elem_of_map_VStr in Hk.
    destruct (Forall2_elem_l _ _ _ _ Hall Hk) as (e & smod & Hg & _). congruence.
  - intros ss es rest -> Hnd Hin Hall.
    destruct (getstate_run_prefix env self σ ss es (VStr k) rest m Hreg Hch Hnd Hin Hall)
      as (ext & outd & Hm & Hstop). cbv zeta in Hstop.
    erewrite Hstop; [done|]. rewrite save_unit_run by done.
    rewrite <- app_assoc. rewrite (getattr_in_ext _ _ _ _ _ Hch), Hno. by rewrite app_assoc.
Qed.

(** X10.  Snapshot of a host whose registry holds a name that resolves
    to something the loop cannot encode raises and returns no state.  For
    a value that is neither a graph module, an optimized module nor a
    script module the exception is [AssertionError]; otherwise it is the
    exception of the serializer.  It is the exception the call ends with
    when the names before it in the registry are saved normally. *)
Theorem snapshot_unencodable_name_raises env σ self reg m k smod e0 :
  registry_in σ self = Ok reg →
  children_in σ self = Ok m →
  VStr k ∈ reg →
  getattr_in σ self k = Ok smod →
  encode_unit env smod = Err e0 →
  (∃ e, fst (__getstate__ env self σ) = Err e) ∧
  (isinstance_fx smod = false → isinstance_ScriptModule smod = false →
   e0 = AssertionError) ∧
  (∀ ss es rest,
     reg = map VStr ss ++ VStr k :: rest →
     NoDup ss → Forall (λ s, s ∈ dict_keys m) ss →
     Forall2 (saved_as env σ self) ss es →
     fst (__getstate__ env self σ) = Err e0).
Proof.
  intros Hreg Hch Hk Hg He. split; [|split].
  - destruct (__getstate__ env self σ) as [[blob|e] σ'] eqn:Hrun; [|eauto]. exfalso.
    destruct (getstate_Ok_saved env self σ reg m blob σ' Hreg Hch Hrun)
      as (ext & d0 & ss & es & _ & -> & _ & _ & Hall & _).
    apply elem_of_map_VStr in Hk.
    destruct (Forall2_elem_l _ _ _ _ Hall Hk) as (e & smod' & Hg' & He'). congruence.
  - intros Hfx Hs. unfold encode_unit in He. rewrite Hfx, Hs in He. congruence.
  - intros ss es rest -> Hnd Hin Hall.
    destruct (getstate_run_prefix env self σ ss es (VStr k) rest m Hreg Hch Hnd Hin Hall)
      as (ext & outd & Hm & Hstop). cbv zeta in Hstop.
    erewrite Hstop; [done|]. rewrite save_unit_run by done.
    rewrite <- app_assoc. rewrite (getattr_in_ext _ _ _ _ _ Hch), Hg, He.
    by rewrite app_assoc.
Qed.

(** * Further properties of restore *)

Section RestoreRun.

Variable env : services.

(** The restore loop on entries that decode: every turn ends normally,
    the names leave the instance dictionary and the decoded modules are
    stored as children, in the order of the entries. *)
Lemma restore_loop_exact self lm items ws :
  Forall2 (decodes_to env) items ws →
  "_modules" ∉ dict_keys items →
  ∀ σ A Mc,
    σ !! self = Some (OInstance A) → dict_get "_modules" A = Some (VRef lm) →
    σ !! lm = Some (ODict Mc) →
    for_each items (λ kv, load_unit env self (fst kv) (snd kv)) σ =
      (Ok tt, <[lm:=ODict (dict_update Mc (combine (dict_keys items) ws))]>
                (<[self:=OInstance (remove_keys (dict_keys items) A)]> σ)).
Proof.
  induction 1 as [|[k e] w items ws (t & b & He & Hdec) _ IH]; intros Hno σ A Mc Hs Hm Hlm.
  - simpl. unfold ret. rewrite (list_insert_id σ self) by done. by rewrite list_insert_id.
  - simpl in He, Hno. subst e. apply not_elem_of_cons in Hno as [Hk Hno].
    assert (lm ≠ self) as Hne by (intros ->; congruence).
    set (σ1 := <[lm:=ODict (dict_set k w Mc)]> (<[self:=OInstance (dict_remove k A)]> σ)).
    assert (σ1 !! self = Some (OInstance (dict_remove k A))) as Hs1.
    { unfold σ1. rewrite lookup_store_ne by done.
      apply list_lookup_insert_eq. by eapply lookup_lt_Some. }
    assert (σ1 !! lm = Some (ODict (dict_set k w Mc))) as Hlm1.
    { apply list_lookup_insert_eq. rewrite length_insert. by eapply lookup_lt_Some. }
    cbn [for_each fst snd]. erewrite bind_run; [|by eapply load_unit_run]. fold σ1.
    rewrite (IH Hno σ1 (dict_remove k A) (dict_set k w Mc) Hs1); [|by rewrite dict_get_remove_ne|done].
    f_equal. unfold σ1. cbn [dict_keys map fst combine]. 
    rewrite (list_insert_insert_ne _ self lm) by done.
    by rewrite !list_insert_insert_eq.
Qed.

(** An entry with a string tag and a bytes buffer that does not decode
    ends the turn with the decoder's exception, nothing written. *)
Lemma load_unit_decode_error self k t b e σ :
  decode_unit env t b = Err e →
  load_unit env self k (VPair (VStr t) (VBytes b)) σ = (Err e, σ).
Proof.
  intros Hdec. unfold load_unit.
  rewrite (bind_run _ _ σ (VStr t, VBytes b) σ) by done. simpl.
  apply bind_fail. unfold lift. by rewrite Hdec.
Qed.

(** Restore of a state whose section starts with entries that decode:
    the call comes down to the loop over the other entries and the
    assignment of the registry. *)
Lemma setstate_run_prefix self ld dd lc items rest ws a lm Mc σ :
  σ !! ld = Some (ODict dd) →
  dict_get "__codegen__" dd = Some (VRef lc) →
  σ !! lc = Some (ODict (items ++ rest)) →
  σ !! self = Some (OInstance a) →
  let dd' := dict_remove "__codegen__" dd in
  let a1 := dict_update a dd' in
  dict_get "_modules" a1 = Some (VRef lm) → σ !! lm = Some (ODict Mc) → lc ≠ lm →
  Forall2 (decodes_to env) items ws → "_modules" ∉ dict_keys items →
  let Mc' := dict_update Mc (combine (dict_keys items) ws) in
  let A' := remove_keys (dict_keys items) a1 in
  let σ4 := <[lm:=ODict Mc']> (<[self:=OInstance A']> σ) ++ [ODict dd'] in
  σ4 !! self = Some (OInstance A') ∧ σ4 !! lm = Some (ODict Mc') ∧
  σ4 !! lc = Some (ODict (items ++ rest)) ∧
  (ld ≠ lm → σ4 !! ld = Some (ODict dd)) ∧
  __setstate__ env self (VRef ld) σ =
    (for_each rest (λ kv, load_unit env self (fst kv) (snd kv)) ;;
     do keys <- read (λ σ, match dict_of σ (VRef lc) with
                           | Ok c => Ok (dict_keys c)
                           | Err _ => Err AttributeError
                           end);
     do l <- alloc (OList (map VStr keys));
     setattr self "__codegen__" (VRef l)) σ4.
Proof.
  intros Hld Hsec Hlc Hs dd' a1 Hm Hlm Hne Hall Hno Mc' A' σ4.
  assert (lm ≠ self) as Hlms by (intros ->; congruence).
  assert (lc ≠ self) as Hlcs by (intros ->; congruence).
  assert (ld ≠ self) as Hlds by (intros ->; congruence).
  assert (self < length σ) as Hlt by (by eapply lookup_lt_Some).
  assert (lm < length σ) as Hlmlt by (by eapply lookup_lt_Some).
  set (σ3 := <[self:=OInstance a1]> σ ++ [ODict dd']).
  assert (σ3 !! self = Some (OInstance a1)) as Hs3.
  { unfold σ3. apply lookup_app_l_Some. by apply list_lookup_insert_eq. }
  assert (σ3 !! lm = Some (ODict Mc)) as Hlm3.
  { unfold σ3. apply lookup_app_l_Some. by rewrite lookup_store_ne. }
  assert (σ3 !! lc = Some (ODict (items ++ rest))) as Hlc3.
  { unfold σ3. apply lookup_app_l_Some. by rewrite lookup_store_ne. }
  assert (<[lm:=ODict Mc']> (<[self:=OInstance A']> σ3) = σ4) as Hσ4.
  { unfold σ3, σ4. rewrite !insert_app_l by (by rewrite ?length_insert).
    by rewrite list_insert_insert_eq. }
  split; [|split; [|split; [|split]]].
  - unfold σ4. apply lookup_app_l_Some. rewrite lookup_store_ne by done.
    by apply list_lookup_insert_eq.
  - unfold σ4. apply lookup_app_l_Some. apply list_lookup_insert_eq.
    by rewrite length_insert.
  - unfold σ4. apply lookup_app_l_Some. by rewrite !lookup_store_ne.
  - intros Hldm. unfold σ4. apply lookup_app_l_Some. by rewrite !lookup_store_ne.
  - rewrite (setstate_run env self ld σ dd a Hld Hs), Hsec. fold dd' a1 σ3.
    unfold restore_units.
    rewrite (bind_run _ _ σ3 (items ++ rest) σ3) by (unfold read, dict_of; by rewrite Hlc3).
    unfold bind at 1. rewrite for_each_app.
    rewrite (restore_loop_exact self lm items ws Hall Hno σ3 a1 Mc Hs3 Hm Hlm3).
    fold Mc' A'. rewrite Hσ4. unfold bind at 3.
    by destruct (for_each rest _ σ4) as [[[]|e] σ5].
Qed.

End RestoreRun.

Section RestoreResult.

Variable env : services.

(** The last lines of restore: the names of the section become the
    registry, a new list. *)
Lemma restore_tail_run self lc c A' (σ4 : heap) :
  σ4 !! self = Some (OInstance A') → σ4 !! lc = Some (ODict c) →
  (do keys <- read (λ σ, match dict_of σ (VRef lc) with
                         | Ok c => Ok (dict_keys c)
                         | Err _ => Err AttributeError
                         end);
   do l <- alloc (OList (map VStr keys));
   setattr self "__codegen__" (VRef l)) σ4
  = (Ok tt, <[self:=OInstance (dict_set "__codegen__" (VRef (length σ4)) A')]>
              (σ4 ++ [OList (map VStr (dict_keys c))])).
Proof.
  intros Hs Hlc.
  rewrite (bind_run _ _ σ4 (dict_keys c) σ4) by (unfold read, dict_of; by rewrite Hlc).
  rewrite (bind_run _ _ σ4 (length σ4) (σ4 ++ [OList (map VStr (dict_keys c))])) by done.
  apply setattr_plain_run; [|done]. by apply lookup_app_l_Some.
Qed.

(** The host as restore leaves it. *)
Lemma restored_host self A' lm Mc' names (σ4 : heap) :
  σ4 !! self = Some (OInstance A') → dict_get "_modules" A' = Some (VRef lm) →
  σ4 !! lm = Some (ODict Mc') →
  let d' := dict_set "__codegen__" (VRef (length σ4)) A' in
  let σ' := <[self:=OInstance d']> (σ4 ++ [OList names]) in
  registry_in σ' self = Ok names ∧ children_in σ' self = Ok Mc' ∧
  σ' !! self = Some (OInstance d') ∧
  (∀ l o, l ≠ self → σ4 !! l = Some o → σ' !! l = Some o).
Proof.
  intros Hs Hm Hlm d' σ'.
  assert (self < length σ4) as Hlt by (by eapply lookup_lt_Some).
  assert (lm ≠ self) as Hne by (intros ->; congruence).
  assert (σ' !! self = Some (OInstance d')) as Hs'.
  { apply list_lookup_insert_eq. rewrite length_app. lia. }
  assert (∀ l o, l ≠ self → σ4 !! l = Some o → σ' !! l = Some o) as Hkeep.
  { intros l o Hl Ho. unfold σ'. rewrite lookup_store_ne by done. by apply lookup_app_l_Some. }
  split; [by apply registry_after_restore_units|]. split; [|done].
  apply children_in_Ok. exists d', lm. split; [done|]. split; [|by apply Hkeep].
  unfold d'. by rewrite dict_get_set_ne.
Qed.

Lemma setstate_run_units self ld dd lc c ws a lm Mc σ :
  σ !! ld = Some (ODict dd) →
  dict_get "__codegen__" dd = Some (VRef lc) →
  σ !! lc = Some (ODict c) →
  σ !! self = Some (OInstance a) →
  let dd' := dict_remove "__codegen__" dd in
  let a1 := dict_update a dd' in
  dict_get "_modules" a1 = Some (VRef lm) → σ !! lm = Some (ODict Mc) → lc ≠ lm →
  Forall2 (decodes_to env) c ws → "_modules" ∉ dict_keys c →
  let Mc' := dict_update Mc (combine (dict_keys c) ws) in
  let A' := remove_keys (dict_keys c) a1 in
  let σ4 := <[lm:=ODict Mc']> (<[self:=OInstance A']> σ) ++ [ODict dd'] in
  σ4 !! self = Some (OInstance A') ∧ σ4 !! lm = Some (ODict Mc') ∧
  σ4 !! lc = Some (ODict c) ∧
  (∀ l o, l ≠ self → l ≠ lm → σ !! l = Some o → σ4 !! l = Some o) ∧
  dict_get "_modules" A' = Some (VRef lm) ∧
  __setstate__ env self (VRef ld) σ =
    (Ok tt, <[self:=OInstance (dict_set "__codegen__" (VRef (length σ4)) A')]>
              (σ4 ++ [OList (map VStr (dict_keys c))])).
Proof.
  intros Hld Hsec Hlc Hs dd' a1 Hm Hlm Hne Hall Hno Mc' A' σ4.
  rewrite <- (app_nil_r c) in Hlc.
  destruct (setstate_run_prefix env self ld dd lc c [] ws a lm Mc σ Hld Hsec Hlc Hs
              Hm Hlm Hne Hall Hno) as (Hs4 & Hlm4 & Hlc4 & _ & Hrun).
  fold dd' a1 Mc' A' σ4 in Hs4, Hlm4, Hlc4, Hrun.
  rewrite app_nil_r in Hlc4.
  split; [done|]. split; [done|]. split; [done|]. split; [|split].
  - intros l o Hl1 Hl2 Hl. unfold σ4. apply lookup_app_l_Some.
    by rewrite !lookup_store_ne.
  - unfold A'. rewrite dict_get_remove_keys. by rewrite bool_decide_eq_false_2.
  - rewrite Hrun. cbn [for_each]. rewrite (bind_run _ _ σ4 tt σ4) by done.
    by apply restore_tail_run.
Qed.

End RestoreResult.




(** The registry is read through the [__codegen__] entry of the instance
    dictionary and the list it refers to only. *)
Lemma registry_in_frame (σ τ : heap) self a a' :
  σ !! self = Some (OInstance a) → τ !! self = Some (OInstance a') →
  dict_get "__codegen__" a' = dict_get "__codegen__" a →
  (∀ l c, σ !! l = Some (OList c) → τ !! l = Some (OList c)) →
  (∀ l c, τ !! l = Some (OList c) → σ !! l = Some (OList c)) →
  registry_in τ self = registry_in σ self.
Proof.
  intros Hs Hs' Hg H1 H2. unfold registry_in, attrs_of. rewrite Hs, Hs', Hg.
  destruct (dict_get "__codegen__" a) as [[| | | | | |l]|]; try done.
  destruct (σ !! l) as [[?|?|c]|] eqn:E.
  3:{ by rewrite (H1 _ _ E). }
  all: destruct (τ !! l) as [[?|?|c']|] eqn:E'; try done.
  all: apply H2 in E'; congruence.
Qed.

Section RestoreStops.

Variable env : services.

(** An entry whose tag is not a string, or whose buffer is not a byte
    string, fails the assertions of the turn, nothing written. *)
Lemma load_unit_ill_typed self k x y σ :
  isinstance_str x = false ∨ isinstance_bytes y = false →
  load_unit env self k (VPair x y) σ = (Err AssertionError, σ).
Proof.
  intros Hbad. unfold load_unit.
  rewrite (bind_run _ _ σ (x, y) σ) by done. simpl.
  destruct x as [| |t| | | |]; try done.
  destruct y as [| | |b| | |]; try done. by destruct Hbad.
Qed.

(** Restore of a state whose section has entries that decode followed
    by an entry on which the turn of the loop raises: the call ends with
    that exception, the state applied and those entries installed, the
    registry not assigned. *)
Lemma setstate_stops_at self ld dd lc items k entry rest ws e a lm Mc σ :
  σ !! ld = Some (ODict dd) →
  dict_get "__codegen__" dd = Some (VRef lc) →
  σ !! lc = Some (ODict (items ++ (k, entry) :: rest)) →
  σ !! self = Some (OInstance a) →
  let a1 := dict_update a (dict_remove "__codegen__" dd) in
  dict_get "_modules" a1 = Some (VRef lm) →
  σ !! lm = Some (ODict Mc) →
  lc ≠ lm →
  Forall2 (decodes_to env) items ws →
  "_modules" ∉ dict_keys items →
  (∀ τ, load_unit env self k entry τ = (Err e, τ)) →
  ∃ σ', __setstate__ env self (VRef ld) σ = (Err e, σ') ∧
        attrs_of σ' self = Ok (remove_keys (dict_keys items) a1) ∧
        children_in σ' self = Ok (dict_update Mc (combine (dict_keys items) ws)) ∧
        ("__codegen__" ∉ dict_keys items → registry_in σ' self = registry_in σ self).
Proof.
  intros Hld Hsec Hlc Hs a1 Hm Hlm Hne Hall Hno Hturn.
  destruct (setstate_run_prefix env self ld dd lc items _ ws a lm Mc σ Hld Hsec Hlc Hs
              Hm Hlm Hne Hall Hno) as (Hs4 & Hlm4 & Hlc4 & _ & Hrun).
  assert (lm ≠ self) as Hlms by (intros ->; congruence).
  eexists. split; [|split; [|split]].
  - rewrite Hrun. apply bind_fail. cbn [for_each fst snd]. apply bind_fail.
    by apply Hturn.
  - apply attrs_of_Ok. exact Hs4.
  - apply children_in_Ok. eexists _, lm. split; [exact Hs4|]. split; [|exact Hlm4].
    rewrite dict_get_remove_keys. by rewrite bool_decide_eq_false_2.
  - intros Hcg. eapply (registry_in_frame σ _ self a _ Hs Hs4).
    + rewrite dict_get_remove_keys, bool_decide_eq_false_2 by done.
      unfold a1. rewrite dict_get_update_None; [done|]. apply dict_get_remove_eq.
    + intros l c' Hl. apply lookup_app_l_Some.
      rewrite !lookup_store_ne; [done| |]; intros ->; congruence.
    + intros l c' Hl.
      destruct (decide (l = lm)) as [->|Hl1]; [congruence|].
      destruct (decide (l = self)) as [->|Hl2]; [congruence|].
      apply lookup_app_Some in Hl as [Hl|[Hge Hl]].
      * by rewrite !lookup_store_ne in Hl.
      * rewrite !length_insert in Hl.
        destruct (l - length σ) as [|n]; simpl in Hl; [done|]. by rewrite lookup_nil in Hl.
Qed.

End RestoreStops.



(** * Round trip, module for module *)

Lemma dict_update_disjoint d ks (vs : list value) :
  (∀ k, k ∈ ks → k ∉ dict_keys d) → NoDup ks →
  dict_update d (combine ks vs) = d ++ combine ks vs.
Proof.
  unfold dict_update. revert d vs. induction ks as [|k ks IH]; intros d vs Hdis Hnd.
  - simpl. by rewrite app_nil_r.
  - destruct vs as [|v vs]; simpl; [by rewrite app_nil_r|].
    apply NoDup_cons in Hnd as [Hn Hnd].
    rewrite dict_set_fresh by (apply Hdis; left).
    rewrite IH; [by rewrite <- app_assoc| |done].
    intros k' Hk'. unfold dict_keys. rewrite map_app, elem_of_app. simpl.
    rewrite list_elem_of_singleton. intros [Hin| ->]; [|done].
    revert Hin. apply Hdis. by right.
Qed.

Section Exact.

Variable env : services.
Hypothesis codecs : codec_exact env.

Lemma encode_then_decode_exact smod e :
  encode_unit env smod = Ok e →
  ∃ t b, e = VPair (VStr t) (VBytes b) ∧ decode_unit env t b = Ok smod.
Proof.
  intros (_ & t & b & -> & Hcase)%encode_unit_Ok. destruct codecs as [Hfx Hts].
  exists t, b. split; [done|]. unfold decode_unit.
  destruct Hcase as [(-> & Hk & Hd)|(-> & Hk & Hd)]; simpl.
  - by rewrite (Hfx _ _ Hk Hd), Hk.
  - by rewrite (Hts _ _ Hk Hd), Hk.
Qed.

(** The records of a snapshot decode to the modules they were made
    from. *)
Lemma saved_units_decode σ self ss es :
  Forall2 (saved_as env σ self) ss es →
  ∃ ws, Forall2 (λ s w, getattr_in σ self s = Ok w) ss ws ∧
        Forall2 (decodes_to env) (combine ss es) ws.
Proof.
  induction 1 as [|s e ss es (smod & Hg & He) _ (ws & Hws & Hdec)]; [by exists []|].
  exists (smod :: ws). split; constructor; try done.
  by apply encode_then_decode_exact.
Qed.

End Exact.


(** X15.  The two codecs of the mixin undo each other: the record
    written for a module carries the tag of its class, ["fx"] for a graph
    module or an optimized module and ["torchscript"] for a script module,
    and decoding the buffer under that tag gives the module back, when the
    serializers themselves lose nothing. *)
Theorem encode_decode_roundtrip env smod e :
  codec_exact env →
  encode_unit env smod = Ok e →
  ∃ t b, e = VPair (VStr t) (VBytes b) ∧
         decode_unit env t b = Ok smod ∧
         (t = "fx" ↔ isinstance_fx smod = true) ∧
         (t = "torchscript" ↔ isinstance_ScriptModule smod = true).
Proof.
  intros Hcodec He.
  destruct (encode_then_decode_exact env Hcodec smod e He) as (t & b & -> & Hdec).
  exists t, b. split; [done|]. split; [done|].
  apply encode_unit_Ok in He as (_ & t' & b' & [= <- <-] & Hcase).
  destruct Hcase as [(-> & Hk & _)|(-> & Hk & _)].
  - split; [done|]. split; [discriminate|].
    intros Hs. destruct smod as [| | | |[[] body]| |]; discriminate.
  - split; [|done]. split; [discriminate|].
    intros Hs. destruct smod as [| | | |[[] body]| |]; discriminate.
Qed.

(** * Registration followed by snapshot *)

Lemma dict_get_elem k v d : NoDup (dict_keys d) → (k, v) ∈ d → dict_get k d = Some v.
Proof.
  induction d as [|[k0 v0] d IH]; [intros _ H; by apply elem_of_nil in H|].
  simpl. intros [Hn Hnd]%NoDup_cons [[= -> ->]|Hin]%elem_of_cons.
  - by rewrite eqb_refl_true.
  - rewrite eqb_ne_false; [by apply IH|]. intros ->. apply Hn.
    apply list_elem_of_In, in_map_iff. exists (k, v). split; [done|].
    by apply list_elem_of_In.
Qed.

(** The record of an installed unit is tagged by the mode it was
    registered under. *)
Lemma installed_tag env kv s e :
  installs env kv s → encode_unit env s = Ok e →
  ∃ b, e = VPair (VStr (if String.eqb (jit_mode env) "script" then "torchscript" else "fx"))
             (VBytes b).
Proof.
  intros [Hg Hs] (_ & t & b & -> & Hcase)%encode_unit_Ok. exists b.
  destruct (String.eqb (jit_mode env) "script").
  - destruct Hs as [_ Hs]. destruct Hcase as [(-> & Hk & _)|(-> & _)]; [|done].
    destruct s as [| | | |[[] body]| |]; discriminate.
  - subst s. destruct Hcase as [(-> & _)|(-> & Hk & _)]; [done|].
    destruct (snd kv) as [| | | |[[] body]| |]; discriminate.
Qed.

Lemma saved_as_installed env σ1 self units installed es :
  Forall2 (installs env) units installed →
  Forall2 (λ s e, encode_unit env s = Ok e) installed es →
  (∀ k w, (k, w) ∈ combine (dict_keys units) installed → getattr_in σ1 self k = Ok w) →
  Forall2 (saved_as env σ1 self) (dict_keys units) es ∧
  Forall (λ e, ∃ b, e = VPair (VStr (if String.eqb (jit_mode env) "script"
                                      then "torchscript" else "fx")) (VBytes b)) es.
Proof.
  intros H. revert es. induction H as [|[k v] s units installed Hi _ IH];
    intros es Henc Hget; inversion Henc as [|? e ? es' He Henc']; subst; [by split|].
  destruct (IH es' Henc') as [IH1 IH2].
  { intros k' w Hkw. apply Hget. simpl. by right. }
  split; constructor; try done.
  - exists s. split; [|done]. apply Hget. simpl. left.
  - by eapply installed_tag.
Qed.


(** * Further concrete runs *)

Lemma toy_codec_exact mode : codec_exact (Toy.env mode).
Proof.
  split; intros [| | | |[[] body]| |] buf Hk [= <-]; try discriminate; reflexivity.
Qed.



(** Registering nothing on a host without a registry, and on a host with
    one. *)
Lemma register_nothing_witness :
  (∃ σ', _codegen_register (Toy.env "none") Toy.host [] Toy.empty_host = (Ok tt, σ') ∧
         registry_in σ' Toy.host = Ok []) ∧
  _codegen_register (Toy.env "none") Toy.host [] Toy.host_a = (Ok tt, Toy.host_a).
Proof.
  split.
  - destruct (register_nothing (Toy.env "none") Toy.empty_host Toy.host []
                (or_intror (conj eq_refl eq_refl)))
      as (σ' & Hrun & Hreg & _).
    exists σ'. by split.
  - destruct (register_nothing (Toy.env "none") Toy.host_a Toy.host [VStr "a"]
                (or_introl eq_refl))
      as (σ' & Hrun & _ & Hsame & _).
    rewrite Hrun. f_equal. exact (Hsame eq_refl).
Defined.


(** Registering ["s"] again on a host that has the children ["f"],
    ["lin"] and ["s"]. *)
Lemma register_leaves_the_rest_witness :
  ∃ d', snd (_codegen_register (Toy.env "none") Toy.host [("s", Toy.graph ["z"%byte])]
               Toy.host_fs) !! Toy.host = Some (OInstance d') ∧
        dict_get "training" d' = Some (VInt 1) ∧
        ∃ m', children_in
                (snd (_codegen_register (Toy.env "none") Toy.host
                        [("s", Toy.graph ["z"%byte])] Toy.host_fs)) Toy.host = Ok m' ∧
              dict_get "f" m' = Some (Toy.graph ["x"%byte]) ∧
              dict_get "lin" m' = Some (Toy.plain ["w"%byte]).
Proof.
  destruct (register_leaves_the_rest (Toy.env "none") Toy.host_fs Toy.host
              [("s", Toy.graph ["z"%byte])] _ eq_refl) as (d' & Hs & Hattrs & Hch).
  exists d'. split; [exact Hs|]. split; [by rewrite Hattrs|].
  destruct (Hch _ eq_refl) as (m' & Hm' & Hsame & _).
  exists m'. split; [exact Hm'|].
  split; (rewrite Hsame; [reflexivity|]); intros [=]%list_elem_of_singleton.
Defined.

(** Snapshot of the host with a graph module, an ordinary child and a
    script module. *)
Lemma snapshot_returns_state_witness :
  ∃ blob σ' outd vm vs,
    __getstate__ (Toy.env "none") Toy.host Toy.host_fs = (Ok blob, σ') ∧
    dict_of σ' blob = Ok outd ∧
    dict_get "__codegen__" outd = Some vs ∧
    dict_of σ' vs
    = Ok [("f", VPair (VStr "fx") (VBytes ["g"%byte; "x"%byte]));
          ("s", VPair (VStr "torchscript") (VBytes ["s"%byte; "y"%byte]))] ∧
    dict_get "_modules" outd = Some vm ∧
    dict_of σ' vm = Ok [("lin", Toy.plain ["w"%byte])] ∧
    (∀ k, k ≠ "_modules" → k ≠ "__codegen__" →
          dict_get k outd
          = dict_get k [("training", VInt 1); ("_modules", VRef 1); ("__codegen__", VRef 2)]).
Proof.
  refine (snapshot_returns_state (Toy.env "none") Toy.host_fs Toy.host _ ["f"; "s"]
            [VPair (VStr "fx") (VBytes ["g"%byte; "x"%byte]);
             VPair (VStr "torchscript") (VBytes ["s"%byte; "y"%byte])] _
            eq_refl eq_refl eq_refl _ _ _).
  - toy_nodup.
  - repeat constructor.
  - repeat constructor; eexists; split; reflexivity.
Defined.

(** Snapshot of a host on which nothing was registered. *)
Lemma snapshot_without_registry_witness :
  ∃ blob σ' outd vm,
    __getstate__ (Toy.env "none") Toy.host Cases.host_lin = (Ok blob, σ') ∧
    dict_of σ' blob = Ok outd ∧
    dict_get "__codegen__" outd = None ∧
    dict_get "_modules" outd = Some vm ∧
    dict_of σ' vm = Ok [("lin", Toy.plain ["w"%byte])] ∧
    Some (VRef 1) ≠ Some vm ∧
    (∀ k, k ≠ "_modules" →
          dict_get k outd = dict_get k [("training", VInt 1); ("_modules", VRef 1)]).
Proof.
  exact (snapshot_without_registry (Toy.env "none") Cases.host_lin Toy.host _ _
           eq_refl eq_refl eq_refl).
Defined.

(** Snapshot of an instance without [_modules]. *)
Lemma snapshot_without_children_dict_witness :
  fst (__getstate__ (Toy.env "none") Toy.host Cases.bare_host) = Err KeyError.
Proof.
  exact (snapshot_without_children_dict (Toy.env "none") Cases.bare_host Toy.host _
           eq_refl eq_refl).
Defined.

(** Snapshot of the host that a failed registration has left: ["b"] is
    in the registry and is no child. *)
Lemma snapshot_unresolved_name_raises_witness :
  fst (__getstate__ (Toy.env "script") Toy.host Cases.host_after_failure)
  = Err AttributeError.
Proof.
  refine (proj2 (snapshot_unresolved_name_raises (Toy.env "script")
                   Cases.host_after_failure Toy.host
                   [VStr "a"; VStr "b"; VStr "c"] _ "b" eq_refl eq_refl _ eq_refl)
            ["a"] [VPair (VStr "torchscript") (VBytes ["s"%byte; "x"%byte])] [VStr "c"]
            eq_refl _ _ _).
  - right. left.
  - toy_nodup.
  - repeat constructor.
  - repeat constructor; eexists; split; reflexivity.
Defined.

(** Snapshot of the host whose registered child is an ordinary module. *)
Lemma snapshot_unencodable_name_raises_witness :
  fst (__getstate__ (Toy.env "none") Toy.host Cases.host_f_replaced)
  = Err AssertionError.
Proof.
  refine (proj2 (proj2 (snapshot_unencodable_name_raises (Toy.env "none")
                          Cases.host_f_replaced Toy.host [VStr "f"] _ "f"
                          (Toy.plain ["w"%byte]) AssertionError
                          eq_refl eq_refl _ eq_refl eq_refl))
            [] [] [] eq_refl _ _ _).
  - left.
  - apply NoDup_nil_2.
  - constructor.
  - constructor.
Defined.





(** The record of a graph module, read back. *)
Lemma encode_decode_roundtrip_witness :
  ∃ t b, VPair (VStr "fx") (VBytes ["g"%byte; "x"%byte]) = VPair (VStr t) (VBytes b) ∧
         decode_unit (Toy.env "none") t b = Ok (Toy.graph ["x"%byte]) ∧
         (t = "fx" ↔ isinstance_fx (Toy.graph ["x"%byte]) = true) ∧
         (t = "torchscript" ↔ isinstance_ScriptModule (Toy.graph ["x"%byte]) = true).
Proof.
  exact (encode_decode_roundtrip (Toy.env "none") (Toy.graph ["x"%byte]) _
           (toy_codec_exact "none") eq_refl).
Defined.



